(** * InvyTrack: the Product record store (src/product/product.py)

    A shallow embedding of the [Product] class and of the parts of Python's
    [csv] module it goes through, followed by the properties of the record
    store: id generation, append, rewrite-on-update, lookup and the
    inventory operations.

    Modelling conventions.
    - The product file is modelled as [csv.reader] sees it and as
      [csv.writer] leaves it: absent, or a list of records, each a list of
      cells (text).  Quoting and line terminators live below this level;
      a cell written by the writer is read back as the same text.
    - The file system of the model never refuses an access: reading fails
      only when the file does not exist, writing and appending never
      fail. The [PermissionError] and [IOError] handlers of the source are
      in the model and have nothing to catch.
    - Cells are ASCII text. Python integers are [Z]; [str] and [int] on
      them are decimal conversions, without the interpreter's limit on
      the number of digits.
    - Python floats are not modelled: the float type, its [repr] and the
      [float()] parser are an interface ([PyFloat]) the development is
      generic in. *)

From Stdlib Require Import ZArith Ascii String DecimalString DecimalZ DecimalPos.
From stdpp Require Import base option list strings gmap.

Local Open Scope string_scope.
Local Open Scope list_scope.
Local Open Scope Z_scope.

(** ** Exceptions and results *)

(** The exception classes the modelled code can raise. All of them derive
    from [Exception]. *)
Inductive exn : Type :=
  | StopIteration
  | FileNotFoundError
  | PermissionError
  | ValueError
  | TypeError
  | KeyError
  | IndexError.

Inductive result (A : Type) : Type :=
  | Ok (a : A)
  | Raise (e : exn).
Arguments Ok {A} a.
Arguments Raise {A} e.

Definition rbind {A B} (r : result A) (k : A → result B) : result B :=
  match r with
  | Ok a => k a
  | Raise e => Raise e
  end.

(** ** Python's [str(int)] and [int(str)] *)

Module PyInt.

(** [str(z)] for an integer: decimal digits, with a leading minus sign
    for negative numbers. *)
Definition str (z : Z) : string := NilZero.string_of_int (Z.to_int z).

(** The ASCII characters [int()] skips on both sides of its argument:
    tab, line feed, vertical tab, form feed, carriage return, space. *)
Definition is_space (a : ascii) : bool :=
  let n := nat_of_ascii a in
  ((9 <=? n)%nat && (n <=? 13)%nat) || (n =? 32)%nat.

Definition is_digit (a : ascii) : bool :=
  let n := nat_of_ascii a in (48 <=? n)%nat && (n <=? 57)%nat.

Fixpoint all_digits (s : string) : bool :=
  match s with
  | EmptyString => true
  | String a r => is_digit a && all_digits r
  end.

Fixpoint lstrip (s : string) : string :=
  match s with
  | EmptyString => EmptyString
  | String a r => if is_space a then lstrip r else s
  end.

Fixpoint rstrip (s : string) : string :=
  match s with
  | EmptyString => EmptyString
  | String a r =>
      match rstrip r with
      | EmptyString => if is_space a then EmptyString else String a EmptyString
      | r' => String a r'
      end
  end.

Definition strip (s : string) : string := rstrip (lstrip s).

(** The digit part of an integer literal: at least one digit, and single
    underscores allowed between digits only. [prev] tells whether the
    previous character was a digit. *)
Fixpoint grouped (prev : bool) (s : string) : bool :=
  match s with
  | EmptyString => prev
  | String a r =>
      if is_digit a then grouped true r
      else if Ascii.eqb a "_" then prev && grouped false r
      else false
  end.

Fixpoint drop_underscores (s : string) : string :=
  match s with
  | EmptyString => EmptyString
  | String a r =>
      if Ascii.eqb a "_" then drop_underscores r
      else String a (drop_underscores r)
  end.

Definition digits (s : string) : option Z :=
  if grouped false s
  then Z.of_uint <$> NilEmpty.uint_of_string (drop_underscores s)
  else None.

(** [int(s)] in base 10; [None] stands for [ValueError]. *)
Definition int (s : string) : option Z :=
  match strip s with
  | String "-" r => Z.opp <$> digits r
  | String "+" r => digits r
  | t => digits t
  end.

End PyInt.

(** ** The float interface *)

(** Python's [float] as the code uses it: [repr] when a cell is written,
    [float(text)] when a cell is read ([None] stands for [ValueError]). *)
Class PyFloat (F : Type) : Type := {
  float_repr : F → string;
  float_of_str : string → option F
}.

(** An instance for evaluating the model on concrete tables: the floats
    whose [repr] is a short plain decimal ([9.99], [10.0], [0.5]), each
    identified with its [repr]. Every such text is the [repr] of the float
    it parses to, and two of them denote different floats. Other spellings
    are left out of this instance, and a value of it is meant to be a
    well-formed text. *)
Module ShortDecimal.

Fixpoint split_dot (s : string) : option (string * string) :=
  match s with
  | EmptyString => None
  | String a r =>
      if Ascii.eqb a "."
      then Some (EmptyString, r)
      else '(i, f) ← split_dot r; Some (String a i, f)
  end.

Definition integral_ok (i : string) : bool :=
  PyInt.all_digits i &&
  match i with
  | EmptyString => false
  | String "0" r => String.eqb r EmptyString
  | _ => (String.length i <=? 9)%nat
  end.

Definition fraction_ok (f : string) : bool :=
  PyInt.all_digits f &&
  match f with
  | String _ EmptyString => true
  | String _ (String b EmptyString) => negb (Ascii.eqb b "0")
  | _ => false
  end.

Definition well_formed (s : string) : bool :=
  match split_dot s with
  | Some (i, f) => integral_ok i && fraction_ok f
  | None => false
  end.

#[export] Instance float : PyFloat string := {
  float_repr := λ f, f;
  float_of_str := λ s, if well_formed s then Some s else None
}.

End ShortDecimal.

(** ** Values, diagnostics and the world *)

(** The Python values that end up in a row handed to [csv.writer]. *)
Inductive pyval (F : Type) : Type :=
  | VNone
  | VBool (b : bool)
  | VInt (z : Z)
  | VFloat (f : F)
  | VStr (s : string).
Arguments VNone {F}.
Arguments VBool {F} b.
Arguments VInt {F} z.
Arguments VFloat {F} f.
Arguments VStr {F} s.

(** One constructor for each [print] of a diagnostic in product.py. *)
Inductive diag : Type :=
  | WritePermissionDenied        (* Error: Insufficient permissions to write to the product file. *)
  | WriteIOError (e : exn)       (* Error: I/O error occurred while writing to the file: {e} *)
  | UpdateIOError (e : exn)      (* Error: I/O error occurred while updating the file: {e} *)
  | UnexpectedError (e : exn)    (* Unexpected error: {e} *)
  | CannotAddNonPositive         (* Error: Cannot add non-positive inventory. *)
  | InvalidRemoval               (* Error: Invalid inventory removal amount. *)
  | ProductFileNotFound          (* Error: Product file not found. *)
  | ProductNotFound (pid : Z)    (* Error: Product with ID {pid} not found. *)
  | MalformedData.               (* Error: Data in the product file is malformed. *)

(** What the code reads and writes: the product file ([None] when it does
    not exist), the lines printed so far, and the calendar date
    [datetime.now().strftime("%Y-%m-%d")] would return. *)
Record world : Type := World {
  file : option (list (list string));
  stdout : list diag;
  today : string
}.

(** Computations that read and change the world and may raise. The world
    reached when an exception is raised is kept: nothing is rolled back. *)
Definition M (A : Type) : Type := world → result A * world.

Definition ret {A} (a : A) : M A := λ w, (Ok a, w).

Definition bind {A B} (m : M A) (k : A → M B) : M B :=
  λ w, match m w with
       | (Ok a, w') => k a w'
       | (Raise e, w') => (Raise e, w')
       end.

Definition raise {A} (e : exn) : M A := λ w, (Raise e, w).

Definition lift {A} (r : result A) : M A := λ w, (r, w).

Declare Scope py_scope.
Delimit Scope py_scope with py.
Notation "x <- m ;; k" := (bind m (λ x, k))
  (at level 100, m at next level, right associativity) : py_scope.
Notation "m ;; k" := (bind m (λ _, k))
  (at level 100, right associativity) : py_scope.
Notation "x <~ r ;; k" := (rbind r (λ x, k))
  (at level 100, r at next level, right associativity) : py_scope.
Local Open Scope py_scope.

(** [try: body except ...]: [handler e] is [None] when no clause matches
    [e], and the exception then propagates. *)
Definition try_except {A} (body : M A) (handler : exn → option (M A)) : M A :=
  λ w, match body w with
       | (Ok a, w') => (Ok a, w')
       | (Raise e, w') =>
           match handler e with
           | Some h => h w'
           | None => (Raise e, w')
           end
       end.

(** The world after one more line has been printed. *)
Definition emit (d : diag) (w : world) : world :=
  World (file w) (stdout w ++ [d]) (today w).

Definition print (d : diag) : M unit := λ w, (Ok tt, emit d w).

Definition strftime_today : M string := λ w, (Ok (today w), w).

(** [issubclass(e, OSError)]; [IOError] is an alias of [OSError]. *)
Definition is_OSError (e : exn) : bool :=
  match e with
  | FileNotFoundError | PermissionError => true
  | _ => false
  end.

(** ** The csv module over the product file *)

(** [open(product_file, "r")] followed by reading every record. *)
Definition read_rows : M (list (list string)) :=
  λ w, match file w with
       | Some rows => (Ok rows, w)
       | None => (Raise FileNotFoundError, w)
       end.

(** What [csv.writer] writes for a field: [None] as the empty text, text
    as it is, anything else through [str]. *)
Definition csv_field {F} `{PyFloat F} (v : pyval F) : string :=
  match v with
  | VNone => ""
  | VBool true => "True"
  | VBool false => "False"
  | VInt z => PyInt.str z
  | VFloat f => float_repr f
  | VStr s => s
  end.

Definition csv_rows {F} `{PyFloat F} (rows : list (list (pyval F))) : list (list string) :=
  map (map csv_field) rows.

(** [open(product_file, "w")] and [writerows]: the file is replaced. *)
Definition write_rows {F} `{PyFloat F} (rows : list (list (pyval F))) : M unit :=
  λ w, (Ok tt, World (Some (csv_rows rows)) (stdout w) (today w)).

(** [open(product_file, "a")] and [writerow] for each row: the records
    are added after the existing ones, in a new file if there is none. *)
Definition append_rows {F} `{PyFloat F} (rows : list (list (pyval F))) : M unit :=
  λ w, (Ok tt, World (Some (default [] (file w) ++ csv_rows rows)) (stdout w) (today w)).

(** [csv.DictReader]: the first record gives the field names; blank
    records after it are skipped; a record shorter than the field names
    is padded with [None]. The surplus cells of a longer record go under
    the key [None], which product.py never reads, and are left out. *)
Definition make_dict (fieldnames row : list string) : gmap string (option string) :=
  let d := foldl (λ d kv, <[kv.1 := Some kv.2]> d) ∅ (zip fieldnames row) in
  foldl (λ d k, <[k := None]> d) d (drop (length row) fieldnames).

Definition is_blank (row : list string) : bool :=
  match row with
  | [] => true
  | _ => false
  end.

Definition DictReader (rows : list (list string)) : list (gmap string (option string)) :=
  match rows with
  | [] => []
  | fieldnames :: rest =>
      make_dict fieldnames <$> List.filter (λ r, negb (is_blank r)) rest
  end.

(** [row[key]] on a dict. *)
Definition dict_getitem (row : gmap string (option string)) (key : string)
  : result (option string) :=
  match row !! key with
  | Some v => Ok v
  | None => Raise KeyError
  end.

(** [l[i]] and [l[i] = v] on a list, with Python's range check. *)
Definition list_getitem {A} (l : list A) (i : nat) : result A :=
  match l !! i with
  | Some x => Ok x
  | None => Raise IndexError
  end.

Definition list_setitem {A} (l : list A) (i : nat) (v : A) : result (list A) :=
  if (i <? length l)%nat then Ok (<[i := v]> l) else Raise IndexError.

(** [int(v)] and [float(v)] on a value read from a dict. *)
Definition py_int (v : option string) : result Z :=
  match v with
  | None => Raise TypeError
  | Some s =>
      match PyInt.int s with
      | Some z => Ok z
      | None => Raise ValueError
      end
  end.

Definition py_float {F} `{PyFloat F} (v : option string) : result F :=
  match v with
  | None => Raise TypeError
  | Some s =>
      match float_of_str s with
      | Some f => Ok f
      | None => Raise ValueError
      end
  end.

(** ** class Product *)

(** [product_columns]. *)
Definition product_columns : list string :=
  ["pid"; "is_active"; "inventory"; "pname"; "pdescription"; "pprice";
   "added_date"; "ptags"].

(** The attributes of a Product object. [from_existing] is the
    classmethod that builds an object from the eight values as they are.
    The text attributes are [None] when [get_product] takes them from a
    record that [csv.DictReader] had to pad. *)
Record Product (F : Type) : Type := from_existing {
  pid : Z;
  is_active : bool;
  inventory : Z;
  pname : option string;
  pdescription : option string;
  pprice : F;
  added_date : option string;
  ptags : option string
}.
Arguments from_existing {F} pid is_active inventory pname pdescription pprice
  added_date ptags.
Arguments pid {F} p.
Arguments is_active {F} p.
Arguments inventory {F} p.
Arguments pname {F} p.
Arguments pdescription {F} p.
Arguments pprice {F} p.
Arguments added_date {F} p.
Arguments ptags {F} p.

Section ProductClass.
Context {F : Type} `{PyFloat F}.

Definition py_text (t : option string) : pyval F :=
  match t with
  | Some s => VStr s
  | None => VNone
  end.

(** The list [_write_to_file] hands to [writer.writerow]. *)
Definition row_of (self : Product F) : list (pyval F) :=
  [VInt (pid self); VBool (is_active self); VInt (inventory self);
   py_text (pname self); py_text (pdescription self); VFloat (pprice self);
   py_text (added_date self); py_text (ptags self)].

(** [_generate_pid]: skip the header with [next(reader)], count what is
    left, add one; 1 when the file does not exist. [next] on a reader
    with no record raises [StopIteration], which no clause catches. *)
Definition _generate_pid : M Z :=
  try_except
    (rows <- read_rows;;
     match rows with
     | [] => raise StopIteration
     | _header :: rest => ret (Z.of_nat (length rest) + 1)
     end)
    (λ e, match e with
          | FileNotFoundError => Some (ret 1)
          | _ => None
          end).

(** [_file_exists]. *)
Definition _file_exists : M bool :=
  try_except
    (_ <- read_rows;; ret true)
    (λ e, match e with
          | FileNotFoundError => Some (ret false)
          | _ => None
          end).

(** [_write_to_file]. *)
Definition _write_to_file (self : Product F) : M unit :=
  try_except
    (exists_ <- _file_exists;;
     let write_header := negb exists_ in
     append_rows
       ((if write_header then [VStr <$> product_columns] else [])
        ++ [row_of self]))
    (λ e, Some (match e with
                | PermissionError => print WritePermissionDenied
                | _ => if is_OSError e then print (WriteIOError e)
                       else print (UnexpectedError e)
                end)).

(** [__init__]. *)
Definition __init__ (pname pdescription : string) (inventory : Z) (pprice : F)
    (ptags : string) : M (Product F) :=
  pid <- _generate_pid;;
  added_date <- strftime_today;;
  let self :=
    from_existing pid true inventory (Some pname) (Some pdescription) pprice
      (Some added_date) (Some ptags) in
  _write_to_file self;;
  ret self.

(** The assignments made under [if row[0] == str(self.pid)]. *)
Definition update_row (self : Product F) (row : list (pyval F))
  : result (list (pyval F)) :=
  row <~ list_setitem row 1 (VBool (is_active self));;
  row <~ list_setitem row 2 (VInt (inventory self));;
  row <~ list_setitem row 3 (py_text (pname self));;
  row <~ list_setitem row 4 (py_text (pdescription self));;
  row <~ list_setitem row 5 (VFloat (pprice self));;
  list_setitem row 7 (py_text (ptags self)).

(** [row[0] == str(self.pid)]: only text can be equal to a [str]. *)
Definition eq_str (v : pyval F) (s : string) : bool :=
  match v with
  | VStr t => String.eqb t s
  | _ => false
  end.

(** The [for row in rows] loop of [_update_file], with its [break]. *)
Fixpoint update_rows (self : Product F) (rows : list (list (pyval F)))
  : result (list (list (pyval F))) :=
  match rows with
  | [] => Ok []
  | row :: rest =>
      c <~ list_getitem row 0;;
      if eq_str c (PyInt.str (pid self))
      then row' <~ update_row self row;; Ok (row' :: rest)
      else rest' <~ update_rows self rest;; Ok (row :: rest')
  end.

(** [_update_file]. *)
Definition _update_file (self : Product F) : M unit :=
  try_except
    (rows <- read_rows;;
     rows <- lift (update_rows self (map (map VStr) rows));;
     write_rows rows)
    (λ e, Some (match e with
                | FileNotFoundError => print ProductFileNotFound
                | _ => if is_OSError e then print (UpdateIOError e)
                       else print (UnexpectedError e)
                end)).

(** The attribute assignments of the setters and of the inventory
    operations. *)
Definition assign_is_active (v : bool) (self : Product F) : Product F :=
  from_existing (pid self) v (inventory self) (pname self) (pdescription self)
    (pprice self) (added_date self) (ptags self).

Definition assign_inventory (v : Z) (self : Product F) : Product F :=
  from_existing (pid self) (is_active self) v (pname self) (pdescription self)
    (pprice self) (added_date self) (ptags self).

Definition assign_pname (v : string) (self : Product F) : Product F :=
  from_existing (pid self) (is_active self) (inventory self) (Some v)
    (pdescription self) (pprice self) (added_date self) (ptags self).

Definition assign_pdescription (v : string) (self : Product F) : Product F :=
  from_existing (pid self) (is_active self) (inventory self) (pname self)
    (Some v) (pprice self) (added_date self) (ptags self).

Definition assign_pprice (v : F) (self : Product F) : Product F :=
  from_existing (pid self) (is_active self) (inventory self) (pname self)
    (pdescription self) v (added_date self) (ptags self).

Definition assign_ptags (v : string) (self : Product F) : Product F :=
  from_existing (pid self) (is_active self) (inventory self) (pname self)
    (pdescription self) (pprice self) (added_date self) (Some v).

(** The setters: assign the attribute, then [_update_file]. A method
    returns the object as it leaves it. *)
Definition set_is_active (v : bool) (self : Product F) : M (Product F) :=
  let self := assign_is_active v self in
  _update_file self;; ret self.

Definition set_pname (v : string) (self : Product F) : M (Product F) :=
  let self := assign_pname v self in
  _update_file self;; ret self.

Definition set_pdescription (v : string) (self : Product F) : M (Product F) :=
  let self := assign_pdescription v self in
  _update_file self;; ret self.

Definition set_pprice (v : F) (self : Product F) : M (Product F) :=
  let self := assign_pprice v self in
  _update_file self;; ret self.

Definition set_ptags (v : string) (self : Product F) : M (Product F) :=
  let self := assign_ptags v self in
  _update_file self;; ret self.

(** [add_inventory] and [remove_inventory]. *)
Definition add_inventory (num : Z) (self : Product F) : M (Product F) :=
  if 0 <? num then
    let self := assign_inventory (inventory self + num) self in
    _update_file self;; ret self
  else
    print CannotAddNonPositive;; ret self.

Definition remove_inventory (num : Z) (self : Product F) : M (Product F) :=
  if (0 <? num) && (num <=? inventory self) then
    let self := assign_inventory (inventory self - num) self in
    _update_file self;; ret self
  else
    print InvalidRemoval;; ret self.

(** The keyword arguments of [cls.from_existing(...)] in [get_product],
    evaluated in the order they are written. *)
Definition hydrate (row : gmap string (option string)) : result (Product F) :=
  c <~ dict_getitem row "pid";;
  pid <~ py_int c;;
  c <~ dict_getitem row "is_active";;
  let is_active := bool_decide (c = Some "True") in
  c <~ dict_getitem row "inventory";;
  inventory <~ py_int c;;
  pname <~ dict_getitem row "pname";;
  pdescription <~ dict_getitem row "pdescription";;
  c <~ dict_getitem row "pprice";;
  pprice <~ py_float c;;
  added_date <~ dict_getitem row "added_date";;
  ptags <~ dict_getitem row "ptags";;
  Ok (from_existing pid is_active inventory pname pdescription pprice
        added_date ptags).

(** The [for row in reader] loop of [get_product]: [Ok None] when the
    loop runs to its end. *)
Fixpoint find_product (target : Z) (reader : list (gmap string (option string)))
  : result (option (Product F)) :=
  match reader with
  | [] => Ok None
  | row :: rest =>
      c <~ dict_getitem row "pid";;
      n <~ py_int c;;
      if n =? target
      then p <~ hydrate row;; Ok (Some p)
      else find_product target rest
  end.

(** [get_product]. *)
Definition get_product (target : Z) : M (option (Product F)) :=
  try_except
    (rows <- read_rows;;
     found <- lift (find_product target (DictReader rows));;
     match found with
     | Some p => ret (Some p)
     | None => print (ProductNotFound target);; ret None
     end)
    (λ e, Some (match e with
                | FileNotFoundError => print ProductFileNotFound;; ret None
                | ValueError => print MalformedData;; ret None
                | _ => print (UnexpectedError e);; ret None
                end)).

End ProductClass.

(** The number of data rows of the table: the records after the header;
    none when there is no file. *)
Definition row_count (f : option (list (list string))) : Z :=
  match f with
  | Some (_ :: rest) => Z.of_nat (length rest)
  | _ => 0
  end.

(** ** Vocabulary of the properties *)

(** The setters and the operations of an entity, as data. *)
Inductive setter (F : Type) : Type :=
  | SetIsActive (v : bool)
  | SetPname (v : string)
  | SetPdescription (v : string)
  | SetPprice (v : F)
  | SetPtags (v : string).
Arguments SetIsActive {F} v.
Arguments SetPname {F} v.
Arguments SetPdescription {F} v.
Arguments SetPprice {F} v.
Arguments SetPtags {F} v.

Inductive operation (F : Type) : Type :=
  | Set_ (s : setter F)
  | AddInventory (num : Z)
  | RemoveInventory (num : Z).
Arguments Set_ {F} s.
Arguments AddInventory {F} num.
Arguments RemoveInventory {F} num.

Section Vocabulary.
Context {F : Type} `{PyFloat F}.

Definition run_setter (s : setter F) (self : Product F) : M (Product F) :=
  match s with
  | SetIsActive v => set_is_active v self
  | SetPname v => set_pname v self
  | SetPdescription v => set_pdescription v self
  | SetPprice v => set_pprice v self
  | SetPtags v => set_ptags v self
  end.

Definition run_operation (op : operation F) (self : Product F) : M (Product F) :=
  match op with
  | Set_ s => run_setter s self
  | AddInventory num => add_inventory num self
  | RemoveInventory num => remove_inventory num self
  end.

Fixpoint run_operations (ops : list (operation F)) (self : Product F)
  : M (Product F) :=
  match ops with
  | [] => ret self
  | op :: rest => self <- run_operation op self;; run_operations rest self
  end.

(** The entity a setter is meant to leave: the set attribute has the
    new value, every other attribute is the one of [self]. *)
Definition after_setter (s : setter F) (self : Product F) : Product F :=
  from_existing
    (pid self)
    (match s with SetIsActive v => v | _ => is_active self end)
    (inventory self)
    (match s with SetPname v => Some v | _ => pname self end)
    (match s with SetPdescription v => Some v | _ => pdescription self end)
    (match s with SetPprice v => v | _ => pprice self end)
    (added_date self)
    (match s with SetPtags v => Some v | _ => ptags self end).


End Vocabulary.




(** [_update_file]'s view: no record has [str(target)] as its first cell. *)
Definition no_row_for (target : Z) (rows : list (list string)) : bool :=
  forallb (λ r, match r with
                | c :: _ => negb (String.eqb c (PyInt.str target))
                | [] => true
                end) rows.

Definition no_blank (rows : list (list string)) : bool :=
  forallb (λ r, negb (is_blank r)) rows.


(** ** Tables and entities used at concrete inputs *)

Module Example.
Import ShortDecimal.

Definition widget_row : list string :=
  ["1"; "True"; "10"; "Widget"; "A widget"; "9.99"; "2024-01-01"; "tag1|tag2"].

(** The entity of [widget_row]. *)
Definition widget : Product string :=
  from_existing 1 true 10 (Some "Widget") (Some "A widget") "9.99"
    (Some "2024-01-01") (Some "tag1|tag2").

(** An object whose id is in none of the tables below. *)
Definition stray : Product string :=
  from_existing 7 true 3 (Some "Gadget") (Some "A gadget") "2.5"
    (Some "2024-01-01") (Some "tag3").

Definition no_file : world := World None [] "2024-01-01".

(** The file exists and has no line at all. *)
Definition empty_file : world := World (Some []) [] "2024-01-01".

Definition one_widget : world :=
  World (Some [product_columns; widget_row]) [] "2024-01-01".

(** A table that ends with a blank line. *)
Definition trailing_blank : world :=
  World (Some [product_columns; widget_row; []]) [] "2024-01-01".



End Example.

(** * The rest of the code

    The interactive code of the repository: the input validator
    (src/util/input_validator.py), [take_constructor_input] of the
    product class, and the shift cipher of src/util/password.py.

    Modelling conventions.
    - The terminal is a session: the lines the user is still to type and
      the lines written so far. [input] takes the next line, without its
      line feed, and raises [EOFError] when none is left. A [print] is
      recorded as a value of [console_line], one constructor for each
      message of the source.
    - A [while True] loop runs on a number of turns computed from the
      lines left to read; the theorems show that this number is never
      used up, so a loop of the model ends as the loop of the source
      does.
    - Typed lines are ASCII text, as the cells of the product file are.
      The cipher leaves ASCII, so there a [str] is the list of its code
      points.
    - The order of Python floats is an interface ([PyFloatOrd]), as the
      floats themselves are.
    - [bcrypt], [getpass], [colorama], [art], [pandas] and [os] are not
      modelled, nor the functions that are only calls to them. *)

(** ** util/input_validator.py: class InputValidator *)

(** Python's [<] on floats, and the literal [0.01] of
    [take_constructor_input]. *)
Class PyFloatOrd (F : Type) : Type := {
  float_lt : F → F → bool;
  float_0_01 : F
}.

(** The order of the short decimals: they are compared as hundredths. *)
Module ShortDecimalOrd.

Definition hundredths (s : string) : Z :=
  match ShortDecimal.split_dot s with
  | Some (i, f) =>
      100 * default 0 (PyInt.digits i)
      + (match f with
         | String _ EmptyString => 10
         | _ => 1
         end) * default 0 (PyInt.digits f)
  | None => 0
  end.

#[export] Instance order : PyFloatOrd string := {
  float_lt := λ a b, hundredths a <? hundredths b;
  float_0_01 := "0.01"
}.

End ShortDecimalOrd.

(** What the validator and its callers write on the terminal: one
    constructor for the prompt of [input] and one for each [print]. *)
Inductive console_line (F : Type) : Type :=
  | Prompt (text : string)
  | StringTooShort (min_length : Z) (* String must be at least {min_length} characters long. *)
  | StringTooLong (max_length : Z)  (* String must be no more than {max_length} characters long. *)
  | IntTooSmall (min_val : Z)       (* Value must be at least {min_val}. *)
  | IntTooLarge (max_val : Z)       (* Value must be no more than {max_val}. *)
  | NotAnInteger                    (* Invalid input. Please enter an integer. *)
  | FloatTooSmall (min_val : F)     (* Value must be at least {min_val}. *)
  | FloatTooLarge (max_val : F)     (* Value must be no more than {max_val}. *)
  | NotAFloat                       (* Invalid input. Please enter a floating-point number. *)
  | InvalidEmail                    (* Invalid email format. Please enter ... *)
  | InvalidPhone                    (* Phone number must be 10 digits, ... *)
  | Boxed (text color : string).    (* toolkit.draw_box(text, color=color) *)
Arguments Prompt {F} text.
Arguments StringTooShort {F} min_length.
Arguments StringTooLong {F} max_length.
Arguments IntTooSmall {F} min_val.
Arguments IntTooLarge {F} max_val.
Arguments NotAnInteger {F}.
Arguments FloatTooSmall {F} min_val.
Arguments FloatTooLarge {F} max_val.
Arguments NotAFloat {F}.
Arguments InvalidEmail {F}.
Arguments InvalidPhone {F}.
Arguments Boxed {F} text color.

(** An interactive session: the lines the user is still to type, what has
    been written on the terminal, and the world of the product file. *)
Record session (F : Type) : Type := Session {
  stdin : list string;
  shown : list (console_line F);
  disk : world
}.
Arguments Session {F} stdin shown disk.
Arguments stdin {F} s.
Arguments shown {F} s.
Arguments disk {F} s.

(** How an interactive computation ends: with a value, with the
    [EOFError] of [input] at the end of the input, or with an exception
    of the store. [Unfinished] is no outcome of Python: it marks a loop the
    model stopped before its end, which the loops of this file never
    need (see [prompt_loop_spec]). *)
Inductive reply (A : Type) : Type :=
  | Reply (a : A)
  | EOFError
  | Raised (e : exn)
  | Unfinished.
Arguments Reply {A} a.
Arguments EOFError {A}.
Arguments Raised {A} e.
Arguments Unfinished {A}.

Definition IO (F A : Type) : Type := session F → reply A * session F.

Definition io_ret {F A} (a : A) : IO F A := λ s, (Reply a, s).

Definition io_bind {F A B} (m : IO F A) (k : A → IO F B) : IO F B :=
  λ s, match m s with
       | (Reply a, s') => k a s'
       | (EOFError, s') => (EOFError, s')
       | (Raised e, s') => (Raised e, s')
       | (Unfinished, s') => (Unfinished, s')
       end.

Notation "x <-- m ;; k" := (io_bind m (λ x, k))
  (at level 100, m at next level, right associativity) : py_scope.
Notation "m ;;; k" := (io_bind m (λ _, k))
  (at level 100, right associativity) : py_scope.

(** [print] on the terminal. *)
Definition say {F} (l : console_line F) : IO F unit :=
  λ s, (Reply tt, Session (stdin s) (shown s ++ [l]) (disk s)).

(** [input(prompt)]: the prompt is written, then a line is read;
    [EOFError] when there is none. *)
Definition input {F} (prompt : string) : IO F string :=
  λ s, match stdin s with
       | [] => (EOFError, Session [] (shown s ++ [Prompt prompt]) (disk s))
       | line :: rest =>
           (Reply line, Session rest (shown s ++ [Prompt prompt]) (disk s))
       end.

(** A computation of the store, run in the session. *)
Definition on_disk {F A} (m : M A) : IO F A :=
  λ s, match m (disk s) with
       | (Ok a, w) => (Reply a, Session (stdin s) (shown s) w)
       | (Raise e, w) => (Raised e, Session (stdin s) (shown s) w)
       end.

(** [while True: body]. [body] gives [Some a] where the code returns [a]
    or breaks with [a], and [None] where it goes round again. The model
    runs at most [turns] turns. *)
Fixpoint while_true {F A} (turns : nat) (body : IO F (option A)) : IO F A :=
  match turns with
  | O => λ s, (Unfinished, s)
  | S turns =>
      r <-- body;;
      match r with
      | Some a => io_ret a
      | None => while_true turns body
      end
  end.

(** The loops of the validator read a line at each turn: one turn more
    than there are lines is enough. *)
Definition enough_turns {F} (s : session F) : nat := S (length (stdin s)).

Section InputValidator.
Context {F : Type} `{PyFloat F} `{PyFloatOrd F}.

(** [len(s)]. *)
Definition len (s : string) : Z := Z.of_nat (String.length s).

(** [is_valid_string]. *)
Definition is_valid_string (input_string : string) (min_length max_length : option Z)
  : IO F bool :=
  let check_max : IO F bool :=
    match max_length with
    | Some m =>
        if m <? len input_string
        then say (StringTooLong m);;; io_ret false
        else io_ret true
    | None => io_ret true
    end in
  match min_length with
  | Some m =>
      if len input_string <? m
      then say (StringTooShort m);;; io_ret false
      else check_max
  | None => check_max
  end.

(** [is_valid_int]: the [ValueError] of [int] is caught. *)
Definition is_valid_int (input_value : string) (min_val max_val : option Z)
  : IO F bool :=
  match PyInt.int input_value with
  | None => say NotAnInteger;;; io_ret false
  | Some int_value =>
      let check_max : IO F bool :=
        match max_val with
        | Some m =>
            if m <? int_value
            then say (IntTooLarge m);;; io_ret false
            else io_ret true
        | None => io_ret true
        end in
      match min_val with
      | Some m =>
          if int_value <? m
          then say (IntTooSmall m);;; io_ret false
          else check_max
      | None => check_max
      end
  end.

(** [is_valid_float]: the [ValueError] of [float] is caught. *)
Definition is_valid_float (input_value : string) (min_val max_val : option F)
  : IO F bool :=
  match float_of_str input_value with
  | None => say NotAFloat;;; io_ret false
  | Some float_value =>
      let check_max : IO F bool :=
        match max_val with
        | Some m =>
            if float_lt m float_value
            then say (FloatTooLarge m);;; io_ret false
            else io_ret true
        | None => io_ret true
        end in
      match min_val with
      | Some m =>
          if float_lt float_value m
          then say (FloatTooSmall m);;; io_ret false
          else check_max
      | None => check_max
      end
  end.

(** [get_string_input]. *)
Definition get_string_input (prompt : string) (min_length max_length : option Z)
  : IO F string :=
  λ s, while_true (enough_turns s)
         (user_input <-- input prompt;;
          ok <-- is_valid_string user_input min_length max_length;;
          if ok then io_ret (Some user_input) else io_ret None) s.

(** [get_int_input]: it returns [int(user_input)], read a second time. *)
Definition get_int_input (prompt : string) (min_val max_val : option Z) : IO F Z :=
  λ s, while_true (enough_turns s)
         (user_input <-- input prompt;;
          ok <-- is_valid_int user_input min_val max_val;;
          if ok then
            match PyInt.int user_input with
            | Some v => io_ret (Some v)
            | None => λ s, (Raised ValueError, s)
            end
          else io_ret None) s.

(** [get_float_input]. *)
Definition get_float_input (prompt : string) (min_val max_val : option F) : IO F F :=
  λ s, while_true (enough_turns s)
         (user_input <-- input prompt;;
          ok <-- is_valid_float user_input min_val max_val;;
          if ok then
            match float_of_str user_input with
            | Some v => io_ret (Some v)
            | None => λ s, (Raised ValueError, s)
            end
          else io_ret None) s.

End InputValidator.

(** ** product.py: take_constructor_input *)

(** The ASCII characters for which [str.isspace] holds; [str.strip]
    removes them. *)
Definition isspace (a : ascii) : bool :=
  let n := nat_of_ascii a in
  ((9 <=? n)%nat && (n <=? 13)%nat) || ((28 <=? n)%nat && (n <=? 32)%nat).

Fixpoint str_lstrip (s : string) : string :=
  match s with
  | EmptyString => EmptyString
  | String a r => if isspace a then str_lstrip r else s
  end.

Fixpoint str_rstrip (s : string) : string :=
  match s with
  | EmptyString => EmptyString
  | String a r =>
      match str_rstrip r with
      | EmptyString => if isspace a then EmptyString else String a EmptyString
      | r' => String a r'
      end
  end.

(** [s.strip()]. *)
Definition str_strip (s : string) : string := str_rstrip (str_lstrip s).

(** [s.split(sep)] for a separator of one character: the pieces between
    the separators, of which there is always at least one. *)
Fixpoint str_split (sep : ascii) (s : string) : list string :=
  match s with
  | EmptyString => [EmptyString]
  | String a r =>
      if Ascii.eqb a sep then EmptyString :: str_split sep r
      else match str_split sep r with
           | piece :: pieces => String a piece :: pieces
           | [] => [String a EmptyString]
           end
  end.

(** The truth value of a [str]: false for the empty one. *)
Definition truthy (s : string) : bool := negb (String.eqb s EmptyString).

(** [all(tag.strip() for tag in ptags.split("|"))]. *)
Definition all_tags_nonblank (ptags : string) : bool :=
  forallb (λ tag, truthy (str_strip tag)) (str_split "|" ptags).

Section TakeConstructorInput.
Context {F : Type} `{PyFloat F} `{PyFloatOrd F}.

(** [take_constructor_input]. [draw_box] belongs to util.ui, which is
    not among the sources: the call is recorded as it is made. *)
Definition take_constructor_input : IO F (Product F) :=
  pname <-- get_string_input "Enter product name: " (Some 3) (Some 50);;
  pdescription <--
    get_string_input "Enter product description: " (Some 3) (Some 200);;
  inventory <-- get_int_input "Enter inventory count: " (Some 0) None;;
  pprice <-- get_float_input "Enter product price: " (Some float_0_01) None;;
  ptags <--
    (λ s, while_true (enough_turns s)
            (ptags <--
               get_string_input "Enter product tags (separated by '|'): "
                 None None;;
             if all_tags_nonblank ptags then io_ret (Some ptags)
             else
               say (Boxed "Invalid format for tags. Please use 'tag1|tag2|tag3'."
                      "red");;;
               io_ret None) s);;
  on_disk (__init__ pname pdescription inventory pprice ptags).

End TakeConstructorInput.

(** ** util/password.py: encrypt and decrypt *)

(** [encrypt] moves characters out of ASCII, so a [str] is here the list
    of its code points; [ord] is the identity on them. *)
Module Password.

(** The two ways [chr] fails. *)
Inductive chr_error : Type :=
  | ArgNotInRange    (* ValueError: chr() arg not in range(0x110000) *)
  | TooLargeForCInt. (* OverflowError: Python int too large to convert to C int *)

Inductive chr_result (A : Type) : Type :=
  | Chr (a : A)
  | ChrRaise (e : chr_error).
Arguments Chr {A} a.
Arguments ChrRaise {A} e.

(** The code points: [range(0x110000)]. *)
Definition is_code_point (c : Z) : bool := (0 <=? c) && (c <? 1114112).

(** [chr(i)]: the argument is first converted to a C int of 32 bits. *)
Definition chr (i : Z) : chr_result Z :=
  if (i <? -2147483648) || (2147483647 <? i) then ChrRaise TooLargeForCInt
  else if is_code_point i then Chr i
  else ChrRaise ArgNotInRange.

(** [''.join([chr(f(ord(char))) for char in s])]: the characters are
    taken from left to right, and the first [chr] that fails ends it. *)
Fixpoint join_chr (f : Z → Z) (s : list Z) : chr_result (list Z) :=
  match s with
  | [] => Chr []
  | char :: rest =>
      match chr (f char) with
      | Chr c =>
          match join_chr f rest with
          | Chr cs => Chr (c :: cs)
          | ChrRaise e => ChrRaise e
          end
      | ChrRaise e => ChrRaise e
      end
  end.

(** [encrypt] and [decrypt]; [shift] is 3 when it is not given. *)
Definition encrypt (input_string : list Z) (shift : Z) : chr_result (list Z) :=
  join_chr (λ c, c + shift) input_string.

Definition decrypt (encrypted_string : list Z) (shift : Z) : chr_result (list Z) :=
  join_chr (λ c, c - shift) encrypted_string.

(** What every [str] satisfies. *)
Definition is_str (s : list Z) : bool := forallb is_code_point s.

End Password.

(** ** More vocabulary for the store *)

Section StoreVocabulary.
Context {F : Type} `{PyFloat F}.




End StoreVocabulary.

(** ** Vocabulary for the validator *)

(** The first line a loop accepts, with the lines before it, the value it
    stands for and the lines after it. *)
Fixpoint first_accepted {A} (accept : string → option A) (lines : list string)
  : option (list string * string * A * list string) :=
  match lines with
  | [] => None
  | l :: rest =>
      match accept l with
      | Some a => Some ([], l, a, rest)
      | None =>
          '(skipped, x, a, rest') ← first_accepted accept rest;
          Some (l :: skipped, x, a, rest')
      end
  end.

(** A character other than white space occurs in [s]; [c] occurs in [s]. *)
Fixpoint has_visible (s : string) : bool :=
  match s with
  | EmptyString => false
  | String a r => negb (isspace a) || has_visible r
  end.

Fixpoint has_char (c : ascii) (s : string) : bool :=
  match s with
  | EmptyString => false
  | String a r => Ascii.eqb a c || has_char c r
  end.

Section ValidatorVocabulary.
Context {F : Type} `{PyFloat F} `{PyFloatOrd F}.

(** The bounds of the three validators, [None] being no bound. *)
Definition within_length (min_length max_length : option Z) (s : string) : bool :=
  negb (from_option (λ m, len s <? m) false min_length)
  && negb (from_option (λ m, m <? len s) false max_length).

Definition within_int (min_val max_val : option Z) (v : Z) : bool :=
  negb (from_option (λ m, v <? m) false min_val)
  && negb (from_option (λ m, m <? v) false max_val).

Definition within_float (min_val max_val : option F) (v : F) : bool :=
  negb (from_option (λ m, float_lt v m) false min_val)
  && negb (from_option (λ m, float_lt m v) false max_val).

(** What a line is worth to each of the three loops. *)
Definition accepted_string (min_length max_length : option Z) (line : string)
  : option string :=
  if within_length min_length max_length line then Some line else None.

Definition accepted_int (min_val max_val : option Z) (line : string) : option Z :=
  v ← PyInt.int line; if within_int min_val max_val v then Some v else None.

Definition accepted_float (min_val max_val : option F) (line : string) : option F :=
  v ← float_of_str line; if within_float min_val max_val v then Some v else None.


(** What each check prints for a line. *)
Definition string_messages (min_length max_length : option Z) (line : string)
  : list (console_line F) :=
  match min_length, max_length with
  | Some m, _ =>
      if len line <? m then [StringTooShort m]
      else match max_length with
           | Some m' => if m' <? len line then [StringTooLong m'] else []
           | None => []
           end
  | None, Some m' => if m' <? len line then [StringTooLong m'] else []
  | None, None => []
  end.

Definition int_messages (min_val max_val : option Z) (line : string)
  : list (console_line F) :=
  match PyInt.int line with
  | None => [NotAnInteger]
  | Some v =>
      match min_val, max_val with
      | Some m, _ =>
          if v <? m then [IntTooSmall m]
          else match max_val with
               | Some m' => if m' <? v then [IntTooLarge m'] else []
               | None => []
               end
      | None, Some m' => if m' <? v then [IntTooLarge m'] else []
      | None, None => []
      end
  end.

Definition float_messages (min_val max_val : option F) (line : string)
  : list (console_line F) :=
  match float_of_str line with
  | None => [NotAFloat]
  | Some v =>
      match min_val, max_val with
      | Some m, _ =>
          if float_lt v m then [FloatTooSmall m]
          else match max_val with
               | Some m' => if float_lt m' v then [FloatTooLarge m'] else []
               | None => []
               end
      | None, Some m' => if float_lt m' v then [FloatTooLarge m'] else []
      | None, None => []
      end
  end.


(** What a loop writes for the lines it reads: for each the prompt, then
    the messages of the check. *)
Definition transcript (prompt : string) (msgs : string → list (console_line F))
    (lines : list string) : list (console_line F) :=
  flat_map (λ l, Prompt prompt :: msgs l) lines.

End ValidatorVocabulary.

(** Sessions used at concrete inputs. *)
Module ExampleSession.
Import ShortDecimal ShortDecimalOrd Example.

(** The user types a name that is too short, then five good answers. *)
Definition typing : session string :=
  Session ["Wi"; "Widget"; "A widget"; "10"; "9.99"; "tag1|tag2"] [] no_file.

(** The user stops before the tags. *)
Definition stops_early : session string :=
  Session ["Widget"; "A widget"; "10"; "9.99"] [] one_widget.


End ExampleSession.

(** ** The patterns of is_valid_email and is_valid_phone *)

(** The part of Python's [re] the two patterns need, on ASCII text. A
    pattern is matched from the start of the text, as [re.match] does, so
    the [^] the patterns begin with asks nothing more and is left out of
    their syntax trees. *)
Module Re.

Inductive regex : Type :=
  | Lit (c : ascii)                 (* an ordinary character, also \+ and \. *)
  | CharIn (p : ascii → bool)       (* [...], \d, \s and . *)
  | Repeat (lo : nat) (hi : option nat) (p : ascii → bool)
                                    (* X{lo,hi}, X{lo,}, X+ and X? for a class X *)
  | Seq (r1 r2 : regex)             (* r1 r2 *)
  | Opt (r : regex)                 (* (r)? *)
  | Look (r : regex)                (* (?=r) *)
  | Dollar.                         (* $ *)

(** [X{lo,hi}] followed by [k]: some number of characters of the class,
    between the bounds, after which [k] succeeds. Which of several such
    numbers the engine of Python settles on does not change whether
    there is one. *)
Fixpoint repeat_then (lo : nat) (hi : option nat) (p : ascii → bool)
    (s : string) (k : string → bool) : bool :=
  if (match lo with O => k s | S _ => false end) then true
  else match s with
       | EmptyString => false
       | String a rest =>
           match hi with
           | Some O => false
           | _ =>
               if p a
               then repeat_then (Nat.pred lo) (Nat.pred <$> hi) p rest k
               else false
           end
       end.

(** [r] at the start of [s], followed by [k] on what [r] leaves. [$] holds
    at the end of the text and before a line feed that ends it; a
    lookahead consumes nothing. *)
Fixpoint match_then (r : regex) (s : string) (k : string → bool) : bool :=
  match r with
  | Lit c =>
      match s with
      | String a rest => if Ascii.eqb a c then k rest else false
      | EmptyString => false
      end
  | CharIn p =>
      match s with
      | String a rest => if p a then k rest else false
      | EmptyString => false
      end
  | Repeat lo hi p => repeat_then lo hi p s k
  | Seq r1 r2 => match_then r1 s (λ rest, match_then r2 rest k)
  | Opt r => if match_then r s k then true else k s
  | Look r => if match_then r s (λ _, true) then k s else false
  | Dollar =>
      if String.eqb s EmptyString || String.eqb s (String "010" EmptyString)
      then k s else false
  end.

(** [bool(re.match(pattern, s))]. *)
Definition matches (pattern : regex) (s : string) : bool :=
  match_then pattern s (λ _, true).

(** A sequence of patterns. *)
Fixpoint seq (rs : list regex) : regex :=
  match rs with
  | [] => Repeat 0 (Some 0%nat) (λ _, false)
  | [r] => r
  | r :: rs => Seq r (seq rs)
  end.

(** Every character of [s] is in the class. *)
Fixpoint all_in (p : ascii → bool) (s : string) : bool :=
  match s with
  | EmptyString => true
  | String a rest => p a && all_in p rest
  end.

(** The classes of the two patterns. *)
Definition between (lo hi : string) (a : ascii) : bool :=
  match lo, hi with
  | String l EmptyString, String h EmptyString =>
      (nat_of_ascii l <=? nat_of_ascii a)%nat
      && (nat_of_ascii a <=? nat_of_ascii h)%nat
  | _, _ => false
  end.

Definition one_of (cs : string) (a : ascii) : bool := has_char a cs.

(** [\d], [\s] and [.]. *)
Definition digit : ascii → bool := between "0" "9".
Definition space : ascii → bool := isspace.
Definition dot (a : ascii) : bool := negb (Ascii.eqb a "010").

(** [A-Za-z], [A-Za-z0-9._%+-] and [A-Za-z0-9.-]. *)
Definition letter (a : ascii) : bool := between "A" "Z" a || between "a" "z" a.
Definition local_char (a : ascii) : bool := letter a || digit a || one_of "._%+-" a.
Definition domain_char (a : ascii) : bool := letter a || digit a || one_of ".-" a.

End Re.

Section Patterns.
Import Re.

(** [email_pattern]:
    ^(?=.{1,64}@.{1,255}$)(?=.{6,256}$)[A-Za-z0-9._%+-]+@[A-Za-z0-9.-]+\.[A-Za-z]{2,}$ *)
Definition email_pattern : regex :=
  seq [Look (seq [Repeat 1 (Some 64%nat) dot; Lit "@";
                  Repeat 1 (Some 255%nat) dot; Dollar]);
       Look (seq [Repeat 6 (Some 256%nat) dot; Dollar]);
       Repeat 1 None local_char;
       Lit "@";
       Repeat 1 None domain_char;
       Lit ".";
       Repeat 2 None letter;
       Dollar].

(** [phone_pattern]: ^(\+91[-\s]?)?[6-9]\d{9}$ *)
Definition phone_pattern : regex :=
  seq [Opt (seq [Lit "+"; Lit "9"; Lit "1";
                 Repeat 0 (Some 1%nat) (λ a, one_of "-" a || space a)]);
       CharIn (between "6" "9");
       Repeat 9 (Some 9%nat) digit;
       Dollar].

(** [is_valid_email] and [is_valid_phone]. *)
Definition is_valid_email (email : string) : bool := matches email_pattern email.

Definition is_valid_phone (phone : string) : bool := matches phone_pattern phone.

(** [is_valid_password]. *)
Definition is_valid_password (password : string) (min_length max_length : option Z)
  : bool :=
  if (match min_length with
      | Some m => len password <? m
      | None => false
      end) then false
  else if (match max_length with
           | Some m => m <? len password
           | None => false
           end) then false
  else true.

(** [get_email_input] and [get_phone_input]. *)
Definition get_email_input {F} (prompt : string) : IO F string :=
  λ s, while_true (enough_turns s)
         (email <-- input prompt;;
          if is_valid_email email then io_ret (Some email)
          else say InvalidEmail;;; io_ret None) s.

Definition get_phone_input {F} (prompt : string) : IO F string :=
  λ s, while_true (enough_turns s)
         (phone <-- input prompt;;
          if is_valid_phone phone then io_ret (Some phone)
          else say InvalidPhone;;; io_ret None) s.

End Patterns.

(** * Properties *)

(** ** [int(str(z)) == z] *)

Module PyIntFacts.
Import PyInt.

Lemma digit_not_space a : is_digit a = true → is_space a = false.
Proof. destruct a as [[] [] [] [] [] [] [] []]; vm_compute; congruence. Qed.

Lemma digit_not_underscore a : is_digit a = true → Ascii.eqb a "_" = false.
Proof. destruct a as [[] [] [] [] [] [] [] []]; vm_compute; congruence. Qed.

Lemma digit_not_sign a :
  is_digit a = true → a ≠ "-"%char ∧ a ≠ "+"%char.
Proof.
  destruct a as [[] [] [] [] [] [] [] []]; vm_compute; intros ?;
    split; congruence.
Qed.

Lemma all_digits_uint d : all_digits (NilEmpty.string_of_uint d) = true.
Proof. induction d; simpl; auto. Qed.

Lemma rstrip_digits s : all_digits s = true → rstrip s = s.
Proof.
  induction s as [|a r IH]; simpl; [done|].
  intros [Ha Hr]%andb_true_iff. rewrite (IH Hr).
  destruct r; [|done]. by rewrite (digit_not_space _ Ha).
Qed.

Lemma lstrip_digits s : all_digits s = true → lstrip s = s.
Proof.
  destruct s as [|a r]; simpl; [done|].
  intros [Ha _]%andb_true_iff. by rewrite (digit_not_space _ Ha).
Qed.

Lemma grouped_digits b s :
  all_digits s = true → grouped b s = match s with EmptyString => b | _ => true end.
Proof.
  revert b. induction s as [|a r IH]; simpl; [done|].
  intros b [Ha Hr]%andb_true_iff. rewrite Ha, (IH _ Hr). by destruct r.
Qed.

Lemma drop_underscores_digits s : all_digits s = true → drop_underscores s = s.
Proof.
  induction s as [|a r IH]; simpl; [done|].
  intros [Ha Hr]%andb_true_iff.
  by rewrite (digit_not_underscore _ Ha), (IH Hr).
Qed.

(** The digit part of what [str] prints is read back as the number. *)
Lemma digits_uint d :
  d ≠ Decimal.Nil → digits (NilEmpty.string_of_uint d) = Some (Z.of_uint d).
Proof.
  intros Hd. unfold digits.
  pose proof (all_digits_uint d) as Hall.
  rewrite (grouped_digits _ _ Hall), (drop_underscores_digits _ Hall).
  rewrite NilEmpty.usu. by destruct d.
Qed.

Lemma to_uint_not_nil p : Pos.to_uint p ≠ Decimal.Nil.
Proof.
  intros Hp. pose proof (DecimalPos.Unsigned.of_to p) as Hr.
  rewrite Hp in Hr. discriminate Hr.
Qed.

Lemma of_uint_to_uint p : Z.of_uint (Pos.to_uint p) = Z.pos p.
Proof. unfold Z.of_uint. by rewrite DecimalPos.Unsigned.of_to. Qed.

Lemma str_pos p : str (Z.pos p) = NilEmpty.string_of_uint (Pos.to_uint p).
Proof.
  unfold str. simpl. pose proof (to_uint_not_nil p).
  by destruct (Pos.to_uint p).
Qed.

Lemma str_neg p :
  str (Z.neg p) = String "-" (NilEmpty.string_of_uint (Pos.to_uint p)).
Proof.
  unfold str. simpl. pose proof (to_uint_not_nil p).
  by destruct (Pos.to_uint p).
Qed.

Lemma int_str z : int (str z) = Some z.
Proof.
  destruct z as [|p|p].
  - reflexivity.
  - rewrite str_pos. unfold int, strip.
    pose proof (all_digits_uint (Pos.to_uint p)) as Hall.
    rewrite (lstrip_digits _ Hall), (rstrip_digits _ Hall).
    pose proof (digits_uint _ (to_uint_not_nil p)) as Hd.
    rewrite of_uint_to_uint in Hd.
    destruct (NilEmpty.string_of_uint (Pos.to_uint p)) as [|a r] eqn:E;
      [done|].
    simpl in Hall. apply andb_true_iff in Hall as [Ha _].
    destruct (digit_not_sign _ Ha) as [Hm Hp].
    destruct a as [[] [] [] [] [] [] [] []]; try done.
  - rewrite str_neg. unfold int, strip.
    pose proof (all_digits_uint (Pos.to_uint p)) as Hall.
    assert (lstrip (String "-" (NilEmpty.string_of_uint (Pos.to_uint p)))
            = String "-" (NilEmpty.string_of_uint (Pos.to_uint p))) as ->
      by reflexivity.
    assert (rstrip (String "-" (NilEmpty.string_of_uint (Pos.to_uint p)))
            = String "-" (NilEmpty.string_of_uint (Pos.to_uint p))) as ->.
    { simpl. rewrite (rstrip_digits _ Hall).
      by destruct (NilEmpty.string_of_uint (Pos.to_uint p)). }
    rewrite (digits_uint _ (to_uint_not_nil p)), of_uint_to_uint.
    reflexivity.
Qed.

Lemma str_inj z1 z2 : str z1 = str z2 → z1 = z2.
Proof.
  intros E. pose proof (int_str z1) as H1. rewrite E, int_str in H1.
  congruence.
Qed.


End PyIntFacts.

(** ** The store: rewrite, append and id generation *)

Ltac unfold_py :=
  unfold try_except, bind, ret, lift, raise, read_rows, write_rows,
    append_rows, print, strftime_today in *.

Lemma world_eta w : World (file w) (stdout w) (today w) = w.
Proof. by destruct w. Qed.


Section Store.
Context {F : Type} `{PyFloat F}.
Implicit Types (self : Product F) (rows : list (list string)) (w : world).

Lemma csv_rows_text rows : csv_rows (F:=F) (map (map VStr) rows) = rows.
Proof.
  unfold csv_rows. rewrite map_map. rewrite <- (map_id rows) at 2.
  apply map_ext. intros r. rewrite map_map. rewrite <- (map_id r) at 2.
  by apply map_ext.
Qed.

Lemma list_setitem_raise {A} (l : list A) i v e :
  list_setitem l i v = Raise e → e = IndexError.
Proof. unfold list_setitem. case_match; congruence. Qed.

Lemma update_row_raise self (row : list (pyval F)) e :
  update_row self row = Raise e → e = IndexError.
Proof.
  unfold update_row, rbind.
  repeat match goal with
         | |- context [list_setitem ?l ?i ?v] =>
             let E := fresh in
             destruct (list_setitem l i v) eqn:E;
             [|apply list_setitem_raise in E; congruence]
         end.
  congruence.
Qed.

(** The loop of [_update_file] fails with [IndexError] only. *)
Lemma update_rows_raise self (rs : list (list (pyval F))) e :
  update_rows self rs = Raise e → e = IndexError.
Proof.
  induction rs as [|r rs IH]; simpl; [congruence|].
  unfold list_getitem. destruct (r !! 0%nat); simpl; [|congruence].
  case_match.
  - destruct (update_row self r) eqn:E; simpl; [congruence|].
    apply update_row_raise in E. congruence.
  - destruct (update_rows self rs); simpl; [congruence|].
    intros [= <-]. by apply IH.
Qed.

(** [_update_file], one case for each way through it. *)
Lemma _update_file_unfold self w :
  _update_file self w =
  match file w with
  | None => (Ok tt, emit ProductFileNotFound w)
  | Some rows =>
      match update_rows self (map (map VStr) rows) with
      | Ok rows' => (Ok tt, World (Some (csv_rows rows')) (stdout w) (today w))
      | Raise _ => (Ok tt, emit (UnexpectedError IndexError) w)
      end
  end.
Proof.
  unfold _update_file. unfold_py.
  destruct (file w) as [rows|]; [|done].
  destruct (update_rows self (map (map VStr) rows)) as [rows'|e] eqn:E; [done|].
  apply update_rows_raise in E. by subst e.
Qed.


Lemma update_rows_no_match self rows :
  no_blank rows = true → no_row_for (pid self) rows = true →
  update_rows self (map (map VStr) rows) = Ok (map (map VStr) rows).
Proof.
  induction rows as [|r rows IH]; simpl; [done|].
  intros [Hr Hb]%andb_true_iff [Hc Hn]%andb_true_iff.
  destruct r as [|c r]; [done|]. simpl.
  apply negb_true_iff in Hc. rewrite Hc. by rewrite (IH Hb Hn).
Qed.




End Store.

(** ** Reading the table back *)

Section Lookup.
Context {F : Type} `{PyFloat F}.
Implicit Types (self : Product F) (rows : list (list string)) (w : world).

(** [get_product], one case for each way through it. *)
Lemma get_product_unfold target w :
  get_product (F:=F) target w =
  match file w with
  | None => (Ok None, emit ProductFileNotFound w)
  | Some rows =>
      match find_product target (DictReader rows) with
      | Ok (Some p) => (Ok (Some p), w)
      | Ok None => (Ok None, emit (ProductNotFound target) w)
      | Raise FileNotFoundError => (Ok None, emit ProductFileNotFound w)
      | Raise ValueError => (Ok None, emit MalformedData w)
      | Raise e => (Ok None, emit (UnexpectedError e) w)
      end
  end.
Proof.
  unfold get_product. unfold_py.
  destruct (file w) as [rows|]; [|done].
  destruct (find_product target (DictReader rows)) as [[p|]|[]]; done.
Qed.



End Lookup.

(** ** Records under the product header *)

Section Columns.
Context {F : Type} `{PyFloat F}.
Implicit Types (self : Product F) (rows : list (list string)) (w : world).




End Columns.

(** ** Rewriting a record and reading it back *)

Section Rewrite.
Context {F : Type} `{PyFloat F}.
Implicit Types (self : Product F) (rows : list (list string)) (w : world).

(** The assignments of [_update_file] need eight cells; they keep the
    first and the seventh and whatever follows the eighth. *)
Lemma update_row_ok self (row out : list (pyval F)) :
  update_row self row = Ok out →
  ∃ a0 a1 a2 a3 a4 a5 a6 a7 extra,
    row = a0 :: a1 :: a2 :: a3 :: a4 :: a5 :: a6 :: a7 :: extra
    ∧ out = a0 :: VBool (is_active self) :: VInt (inventory self)
            :: py_text (pname self) :: py_text (pdescription self)
            :: VFloat (pprice self) :: a6 :: py_text (ptags self) :: extra.
Proof.
  intros E.
  do 8 (destruct row as [|? row]; [cbn in E; discriminate E|]).
  cbn in E. injection E as <-. by repeat eexists.
Qed.

Lemma update_row_total self (a0 a1 a2 a3 a4 a5 a6 a7 : pyval F) extra :
  update_row self (a0 :: a1 :: a2 :: a3 :: a4 :: a5 :: a6 :: a7 :: extra) =
  Ok (a0 :: VBool (is_active self) :: VInt (inventory self)
      :: py_text (pname self) :: py_text (pdescription self)
      :: VFloat (pprice self) :: a6 :: py_text (ptags self) :: extra).
Proof. reflexivity. Qed.

Lemma map_csv_text (cs : list string) : map (csv_field (F:=F)) (map VStr cs) = cs.
Proof. rewrite map_map. rewrite <- (map_id cs) at 2. by apply map_ext. Qed.


End Rewrite.

(** ** The commit path under the setters *)

Section Commit.
Context {F : Type} `{PyFloat F}.
Implicit Types (self : Product F) (rows : list (list string)) (w : world).


(** [_update_file] returns, whatever the file holds. *)
Lemma _update_file_returns self w : ∃ w', _update_file self w = (Ok tt, w').
Proof.
  rewrite _update_file_unfold.
  destruct (file w); [destruct (update_rows _ _)|]; eauto.
Qed.

(** A setter assigns its attribute and commits. *)
Lemma run_setter_unfold (s : setter F) self w :
  run_setter s self w =
  (Ok (after_setter s self), (_update_file (after_setter s self) w).2).
Proof.
  destruct s; cbn [run_setter];
    unfold set_is_active, set_pname, set_pdescription, set_pprice, set_ptags,
      assign_is_active, assign_pname, assign_pdescription, assign_pprice,
      assign_ptags, bind, ret;
    cbv beta iota delta [after_setter];
    match goal with
    | |- context [_update_file ?p w] =>
        destruct (_update_file_returns p w) as [w' E]; rewrite E
    end; reflexivity.
Qed.

Lemma map_rows_csv_text rows :
  map (map (csv_field (F:=F))) (map (map VStr) rows) = rows.
Proof. apply csv_rows_text. Qed.

(** A second run of the loop on what the first one wrote finds the same
    record and writes the same text. *)
Lemma update_rows_again self rows (out : list (list (pyval F))) :
  update_rows self (map (map VStr) rows) = Ok out →
  ∃ out2, update_rows self (map (map VStr) (csv_rows out)) = Ok out2
          ∧ csv_rows out2 = csv_rows out.
Proof.
  revert out. induction rows as [|r rows IH]; intros out Hup.
  - injection Hup as <-. by exists [].
  - destruct r as [|c cs]; [discriminate Hup|].
    cbn [map update_rows list_getitem lookup list_lookup rbind eq_str] in Hup.
    destruct (String.eqb c (PyInt.str (pid self))) eqn:Ec.
    + destruct (update_row self _) as [r'|] eqn:Erow; [|discriminate Hup].
      injection Hup as <-.
      apply update_row_ok in Erow
        as (a0 & a1 & a2 & a3 & a4 & a5 & a6 & a7 & extra & Erow & ->).
      destruct cs as [|c1 [|c2 [|c3 [|c4 [|c5 [|c6 [|c7 cs]]]]]]]; try done.
      injection Erow as <- <- <- <- <- <- <- <- <-.
      unfold csv_rows at 1. cbn [map csv_field].
      cbn [update_rows list_getitem lookup list_lookup rbind eq_str].
      rewrite Ec, update_row_total. cbn [rbind].
      eexists. split; [reflexivity|].
      unfold csv_rows. cbn [map csv_field]. rewrite !map_csv_text.
      by rewrite !map_rows_csv_text.
    + destruct (update_rows self _) as [rest|] eqn:Erest; [|discriminate Hup].
      injection Hup as <-.
      destruct (IH _ eq_refl) as (rest2 & E2 & Ecsv).
      unfold csv_rows at 1. cbn [map csv_field]. rewrite map_csv_text.
      fold (csv_rows rest).
      cbn [map update_rows list_getitem lookup list_lookup rbind eq_str].
      rewrite Ec, E2. cbn [rbind].
      eexists. split; [reflexivity|].
      unfold csv_rows. cbn [map csv_field]. rewrite map_csv_text.
      f_equal. apply Ecsv.
Qed.

(** Committing the same object twice leaves the file as committing it
    once. *)
Lemma _update_file_twice self w :
  file (_update_file self (_update_file self w).2).2 = file (_update_file self w).2.
Proof.
  rewrite (_update_file_unfold self w).
  destruct (file w) as [rows|] eqn:Ef.
  - destruct (update_rows self (map (map VStr) rows)) as [out|e] eqn:Eup.
    + rewrite _update_file_unfold. cbn [snd file].
      destruct (update_rows_again _ _ _ Eup) as (out2 & -> & Ecsv).
      cbn [snd file]. by rewrite Ecsv.
    + rewrite _update_file_unfold. cbn [snd file emit]. rewrite Ef, Eup.
      by cbn [snd file emit].
  - rewrite _update_file_unfold. cbn [snd file emit]. by rewrite Ef.
Qed.
End Commit.

(** * The claims *)

Section Claims.
Context {F : Type} `{PyFloat F}.
Implicit Types (self e : Product F) (rows : list (list string)) (w : world).

(** C10. On a product file that exists and has no line, [_generate_pid]
    raises [StopIteration] and so does the constructor: nothing is
    returned and the file is left as it was. The fallback to 1 covers
    the file that does not exist, and only that one. *)
Theorem generate_pid_empty_file_raises name descr inv (price : F) tags out date :
  _generate_pid (World (Some []) out date)
    = (Raise StopIteration, World (Some []) out date)
  ∧ __init__ name descr inv price tags (World (Some []) out date)
    = (Raise StopIteration, World (Some []) out date)
  ∧ _generate_pid (World None out date) = (Ok 1, World None out date).
Proof. repeat split. Qed.


(** C5, as the code has it. When the file exists, has no blank record
    and no record starts with the text of the id, [_update_file]
    rewrites the file with the records it read and prints nothing. *)
Theorem rewrite_without_match_keeps_file self rows w :
  file w = Some rows →
  no_blank rows = true →
  no_row_for (pid self) rows = true →
  _update_file self w = (Ok tt, w).
Proof.
  intros Ef Hb Hn. rewrite _update_file_unfold, Ef.
  rewrite (update_rows_no_match _ _ Hb Hn), csv_rows_text, <- Ef.
  by rewrite world_eta.
Qed.

(** One operation returns, and keeps a non-negative inventory
    non-negative. *)
Lemma run_operation_inventory (op : operation F) e w :
  ∃ e' w', run_operation op e w = (Ok e', w')
    ∧ (0 ≤ inventory e → 0 ≤ inventory e').
Proof.
  destruct op as [s|num|num]; cbn [run_operation].
  - rewrite run_setter_unfold. by repeat eexists.
  - unfold add_inventory. destruct (Z.ltb_spec 0 num).
    + unfold bind, ret.
      destruct (_update_file_returns (assign_inventory (inventory e + num) e) w)
        as [w' ->].
      repeat eexists. cbn. lia.
    + by repeat eexists.
  - unfold remove_inventory.
    destruct (Z.ltb_spec 0 num); cbn [andb]; [|by repeat eexists].
    destruct (Z.leb_spec num (inventory e)); [|by repeat eexists].
    unfold bind, ret.
    destruct (_update_file_returns (assign_inventory (inventory e - num) e) w)
      as [w' ->].
    repeat eexists. cbn. lia.
Qed.

(** C2. Whatever sequence of setters, [add_inventory] and
    [remove_inventory] calls is run on an entity, accepted or rejected,
    each call returns and an inventory that was non-negative is
    non-negative at the end. *)
Theorem inventory_never_negative (ops : list (operation F)) e w :
  0 ≤ inventory e →
  ∃ e' w', run_operations ops e w = (Ok e', w') ∧ 0 ≤ inventory e'.
Proof.
  revert e w. induction ops as [|op ops IH]; intros e w Hinv.
  - by exists e, w.
  - destruct (run_operation_inventory op e w) as (e1 & w1 & E1 & H1).
    destruct (IH e1 w1 (H1 Hinv)) as (e2 & w2 & E2 & H2).
    exists e2, w2. split; [|done].
    cbn [run_operations]. unfold bind. by rewrite E1.
Qed.


(** C9. Calling [set_pname(x)] a second time leaves the file exactly as
    the first call left it, and the object too. *)
Theorem set_pname_twice (x : string) e w :
  ∃ e1 w1 w2,
    set_pname x e w = (Ok e1, w1)
    ∧ set_pname x e1 w1 = (Ok e1, w2)
    ∧ file w2 = file w1.
Proof.
  pose proof (run_setter_unfold (SetPname x) e w) as E1.
  cbn [run_setter] in E1. rewrite E1.
  set (e1 := after_setter (SetPname x) e).
  pose proof (run_setter_unfold (SetPname x) e1 (_update_file e1 w).2) as E2.
  cbn [run_setter] in E2.
  assert (after_setter (SetPname x) e1 = e1) as Hid by reflexivity.
  rewrite Hid in E2.
  exists e1, (_update_file e1 w).2, (_update_file e1 (_update_file e1 w).2).2.
  split; [done|]. split; [done|]. apply _update_file_twice.
Qed.
End Claims.

Section ClaimsLookup.
Context {F : Type} `{PyFloat F}.
Implicit Types (self e : Product F) (rows : list (list string)) (w : world).








End ClaimsLookup.

(** * The claims at concrete tables *)

Section Concrete.
Import ShortDecimal Example.

(** C1, where the code departs from it. The product file exists and has
    no line: there are no data rows, so the constructor should return a
    product with id 1 and leave one data row. It raises [StopIteration]
    out of [_generate_pid] instead, and the file still has no row. *)
Theorem create_on_empty_file_raises :
  row_count (file empty_file) = 0
  ∧ __init__ "Widget" "A widget" 10 ("9.99" : string) "tag1|tag2" empty_file
    = (Raise StopIteration, empty_file).
Proof. split; reflexivity. Qed.

(** The scenarios of the specification: creation in a new table, then
    removal down to zero and a removal that is refused. *)
Example scenario_create :
  __init__ "Widget" "A widget" 10 ("9.99" : string) "tag1|tag2" no_file
  = (Ok widget, one_widget).
Proof. reflexivity. Qed.

Example scenario_remove :
  run_operations [RemoveInventory 10; RemoveInventory 1] widget one_widget
  = (Ok (assign_inventory 0 widget),
     World (Some [product_columns;
                  ["1"; "True"; "0"; "Widget"; "A widget"; "9.99";
                   "2024-01-01"; "tag1|tag2"]])
       [InvalidRemoval] "2024-01-01").
Proof. reflexivity. Qed.

Lemma inventory_never_negative_witness :
  0 ≤ inventory widget
  ∧ ∃ e' w',
      run_operations
        [RemoveInventory 10; RemoveInventory 1; AddInventory (-3);
         Set_ (SetPname "Gadget"); AddInventory 4] widget one_widget
      = (Ok e', w')
      ∧ 0 ≤ inventory e'.
Proof.
  split; [cbn; lia|].
  apply (inventory_never_negative
           [RemoveInventory 10; RemoveInventory 1; AddInventory (-3);
            Set_ (SetPname "Gadget"); AddInventory 4] widget one_widget).
  cbn. lia.
Defined.


(** C5 as stated fails where there is no file, and on a table with a
    blank line: the object [stray] has an id no record carries, and
    [_update_file] prints a diagnostic and rewrites nothing. *)
Lemma rewrite_without_match_reports :
  (_update_file stray no_file = (Ok tt, World None [ProductFileNotFound] "2024-01-01")
   ∧ (_update_file stray no_file).2 ≠ no_file)
  ∧ (no_row_for (pid stray) [product_columns; widget_row; []] = true
     ∧ _update_file stray trailing_blank
       = (Ok tt,
          World (Some [product_columns; widget_row; []])
            [UnexpectedError IndexError] "2024-01-01")
     ∧ (_update_file stray trailing_blank).2 ≠ trailing_blank).
Proof. repeat split; try reflexivity; discriminate. Qed.

Lemma rewrite_without_match_keeps_file_witness :
  file one_widget = Some [product_columns; widget_row]
  ∧ no_blank [product_columns; widget_row] = true
  ∧ no_row_for (pid stray) [product_columns; widget_row] = true
  ∧ _update_file stray one_widget = (Ok tt, one_widget).
Proof.
  split; [reflexivity|]. split; [reflexivity|]. split; [reflexivity|].
  apply (rewrite_without_match_keeps_file stray
           [product_columns; widget_row] one_widget);
    reflexivity.
Defined.






End Concrete.

(** * Properties of the rest of the code *)

(** ** The loops of the validator *)

Lemma first_accepted_some {A} (accept : string → option A) lines skipped x a rest :
  first_accepted accept lines = Some (skipped, x, a, rest) →
  lines = skipped ++ x :: rest
  ∧ Forall (λ l, accept l = None) skipped
  ∧ accept x = Some a.
Proof.
  revert skipped. induction lines as [|l lines IH]; intros skipped; [done|].
  cbn [first_accepted]. destruct (accept l) as [a'|] eqn:El.
  - intros [= <- <- <- <-]. by repeat split.
  - destruct (first_accepted accept lines) as [[[[sk x'] a'] rest']|] eqn:Ef;
      [|done].
    cbn. intros [= <- <- <- <-].
    destruct (IH _ eq_refl) as (-> & Hsk & Hx). repeat split; [|done].
    by constructor.
Qed.

Lemma first_accepted_none {A} (accept : string → option A) lines :
  first_accepted accept lines = None → Forall (λ l, accept l = None) lines.
Proof.
  induction lines as [|l lines IH]; [by constructor|].
  cbn [first_accepted]. destruct (accept l) eqn:El; [done|].
  destruct (first_accepted accept lines) as [[[[sk x'] a'] rest']|]; [done|].
  intros _. constructor; [done|by apply IH].
Qed.

Section Loops.
Context {F : Type} `{PyFloat F} `{PyFloatOrd F}.
Implicit Types (s : session F).


Lemma while_true_turn {A} n (body : IO F (option A)) s :
  while_true (S n) body s
  = match body s with
    | (Reply (Some a), s') => (Reply a, s')
    | (Reply None, s') => while_true n body s'
    | (EOFError, s') => (EOFError, s')
    | (Raised e, s') => (Raised e, s')
    | (Unfinished, s') => (Unfinished, s')
    end.
Proof.
  cbn [while_true]. unfold io_bind. by destruct (body s) as [[[a|]| | |] s'].
Qed.

(** The loop [while True: x = input(prompt); check x], for a check that
    only writes on the terminal: it returns at the first line the check
    accepts, and ends with [EOFError] when it accepts none. One turn more
    than there are lines is always enough. *)
Lemma prompt_loop_spec {A} (prompt : string) (check : string → IO F (option A))
    (accept : string → option A) (msgs : string → list (console_line F)) :
  (∀ l s, check l s
          = (Reply (accept l), Session (stdin s) (shown s ++ msgs l) (disk s))) →
  ∀ lines sh d n, (length lines ≤ n)%nat →
    while_true (S n) (user_input <-- input prompt;; check user_input)
      (Session lines sh d)
    = match first_accepted accept lines with
      | Some (skipped, x, a, rest) =>
          (Reply a,
           Session rest (sh ++ transcript prompt msgs (skipped ++ [x])) d)
      | None =>
          (EOFError,
           Session [] (sh ++ transcript prompt msgs lines ++ [Prompt prompt]) d)
      end.
Proof.
  intros Hcheck lines. induction lines as [|l lines IH]; intros sh d n Hn.
  - reflexivity.
  - destruct n as [|n]; [cbn in Hn; lia|].
    rewrite while_true_turn. unfold io_bind at 1.
    cbn [input stdin shown disk]. rewrite Hcheck. cbn [stdin shown disk].
    cbn [first_accepted]. destruct (accept l) as [a|] eqn:El.
    + cbn. unfold transcript. cbn. by rewrite app_nil_r, <- app_assoc.
    + rewrite IH by (cbn in Hn; lia).
      destruct (first_accepted accept lines) as [[[[sk x] a] rest]|]; cbn;
        unfold transcript; cbn; by rewrite <- !app_assoc.
Qed.

End Loops.

Section Validators.
Context {F : Type} `{PyFloat F} `{PyFloatOrd F}.
Implicit Types (s : session F).

Lemma session_eta s : Session (stdin s) (shown s) (disk s) = s.
Proof. by destruct s. Qed.

Lemma string_check_run min_length max_length l s :
  (ok <-- is_valid_string l min_length max_length;;
   if ok then io_ret (Some l) else io_ret None) s
  = (Reply (accepted_string min_length max_length l),
     Session (stdin s) (shown s ++ string_messages min_length max_length l) (disk s)).
Proof.
  unfold is_valid_string, accepted_string, within_length, string_messages,
    io_bind, say, io_ret.
  destruct min_length as [lo|], max_length as [hi|]; cbn [from_option];
    repeat case_match; cbn; rewrite ?app_nil_r, ?session_eta; try done;
    congruence.
Qed.

Lemma int_check_run min_val max_val l s :
  (ok <-- is_valid_int l min_val max_val;;
   if ok then
     match PyInt.int l with
     | Some v => io_ret (Some v)
     | None => λ s, (Raised ValueError, s)
     end
   else io_ret None) s
  = (Reply (accepted_int min_val max_val l),
     Session (stdin s) (shown s ++ int_messages min_val max_val l) (disk s)).
Proof.
  unfold is_valid_int, accepted_int, within_int, int_messages,
    io_bind, say, io_ret.
  destruct (PyInt.int l) as [v|]; [|done]. cbn [mbind option_bind].
  destruct min_val as [lo|], max_val as [hi|]; cbn [from_option];
    repeat case_match; cbn; rewrite ?app_nil_r, ?session_eta; try done;
    congruence.
Qed.

Lemma float_check_run min_val max_val l s :
  (ok <-- is_valid_float l min_val max_val;;
   if ok then
     match float_of_str l with
     | Some v => io_ret (Some v)
     | None => λ s, (Raised ValueError, s)
     end
   else io_ret None) s
  = (Reply (accepted_float min_val max_val l),
     Session (stdin s) (shown s ++ float_messages min_val max_val l) (disk s)).
Proof.
  unfold is_valid_float, accepted_float, within_float, float_messages,
    io_bind, say, io_ret.
  destruct (float_of_str l) as [v|]; [|done]. cbn [mbind option_bind].
  destruct min_val as [lo|], max_val as [hi|]; cbn [from_option];
    repeat case_match; cbn; rewrite ?app_nil_r, ?session_eta; try done;
    congruence.
Qed.

(** The three loops as one equation each. *)
Lemma get_string_input_unfold prompt min_length max_length s :
  get_string_input prompt min_length max_length s
  = match first_accepted (accepted_string min_length max_length) (stdin s) with
    | Some (skipped, x, a, rest) =>
        (Reply a,
         Session rest
           (shown s ++ transcript prompt (string_messages min_length max_length)
                         (skipped ++ [x])) (disk s))
    | None =>
        (EOFError,
         Session []
           (shown s ++ transcript prompt (string_messages min_length max_length)
                         (stdin s) ++ [Prompt prompt]) (disk s))
    end.
Proof.
  unfold get_string_input, enough_turns. rewrite <- (session_eta s) at 2.
  apply (prompt_loop_spec prompt _ _ _ (string_check_run _ _)). lia.
Qed.

Lemma get_int_input_unfold prompt min_val max_val s :
  get_int_input prompt min_val max_val s
  = match first_accepted (accepted_int min_val max_val) (stdin s) with
    | Some (skipped, x, a, rest) =>
        (Reply a,
         Session rest
           (shown s ++ transcript prompt (int_messages min_val max_val)
                         (skipped ++ [x])) (disk s))
    | None =>
        (EOFError,
         Session []
           (shown s ++ transcript prompt (int_messages min_val max_val) (stdin s)
              ++ [Prompt prompt]) (disk s))
    end.
Proof.
  unfold get_int_input, enough_turns. rewrite <- (session_eta s) at 2.
  apply (prompt_loop_spec prompt _ _ _ (int_check_run _ _)). lia.
Qed.

Lemma get_float_input_unfold prompt min_val max_val s :
  get_float_input prompt min_val max_val s
  = match first_accepted (accepted_float min_val max_val) (stdin s) with
    | Some (skipped, x, a, rest) =>
        (Reply a,
         Session rest
           (shown s ++ transcript prompt (float_messages min_val max_val)
                         (skipped ++ [x])) (disk s))
    | None =>
        (EOFError,
         Session []
           (shown s ++ transcript prompt (float_messages min_val max_val) (stdin s)
              ++ [Prompt prompt]) (disk s))
    end.
Proof.
  unfold get_float_input, enough_turns. rewrite <- (session_eta s) at 2.
  apply (prompt_loop_spec prompt _ _ _ (float_check_run _ _)). lia.
Qed.
End Validators.

Section ValidatorOutcomes.
Context {F : Type} `{PyFloat F} `{PyFloatOrd F}.
Implicit Types (s : session F).

Lemma transcript_length prompt (msgs : string → list (console_line F)) lines :
  Forall (λ l, length (msgs l) = 1%nat) lines →
  length (transcript prompt msgs lines) = (2 * length lines)%nat.
Proof.
  induction 1 as [|l lines Hl _ IH]; [done|].
  unfold transcript in *. cbn. rewrite length_app, Hl, IH. lia.
Qed.

Lemma transcript_app prompt (msgs : string → list (console_line F)) l1 l2 :
  transcript prompt msgs (l1 ++ l2)
  = transcript prompt msgs l1 ++ transcript prompt msgs l2.
Proof. unfold transcript. by rewrite flat_map_app. Qed.

Lemma string_messages_length min_length max_length l :
  length (string_messages (F:=F) min_length max_length l)
  = match accepted_string min_length max_length l with
    | Some _ => 0%nat
    | None => 1%nat
    end.
Proof.
  unfold string_messages, accepted_string, within_length.
  destruct min_length, max_length; cbn [from_option]; repeat case_match;
    cbn in *; congruence.
Qed.

Lemma int_messages_length min_val max_val l :
  length (int_messages (F:=F) min_val max_val l)
  = match accepted_int min_val max_val l with
    | Some _ => 0%nat
    | None => 1%nat
    end.
Proof.
  unfold int_messages, accepted_int, within_int.
  destruct (PyInt.int l); [|done]. cbn [mbind option_bind].
  destruct min_val, max_val; cbn [from_option]; repeat case_match;
    cbn in *; congruence.
Qed.

Lemma float_messages_length min_val max_val l :
  length (float_messages min_val max_val l)
  = match accepted_float min_val max_val l with
    | Some _ => 0%nat
    | None => 1%nat
    end.
Proof.
  unfold float_messages, accepted_float, within_float.
  destruct (float_of_str l); [|done]. cbn [mbind option_bind].
  destruct min_val, max_val; cbn [from_option]; repeat case_match;
    cbn in *; congruence.
Qed.

(** What is written by a loop that returns: for each line it went past
    the prompt and one message, and a last prompt. *)
Lemma returning_transcript_length {A} prompt (accept : string → option A)
    (msgs : string → list (console_line F)) skipped x a sh :
  (∀ l, length (msgs l) = match accept l with Some _ => 0%nat | None => 1%nat end) →
  Forall (λ l, accept l = None) skipped → accept x = Some a →
  length (sh ++ transcript prompt msgs (skipped ++ [x]))
  = (length sh + 2 * length skipped + 1)%nat.
Proof.
  intros Hm Hsk Hx. rewrite length_app, transcript_app, length_app.
  rewrite transcript_length.
  - unfold transcript. cbn. rewrite app_nil_r. cbn. rewrite Hm, Hx. lia.
  - eapply Forall_impl; [exact Hsk|]. cbn. intros l Hl. by rewrite Hm, Hl.
Qed.

(** X1. [get_string_input] returns the first line whose length is within the
    bounds. The lines before it are read and lost, each answered by one
    message; when no line is within the bounds the loop reads them all
    and ends with the [EOFError] of [input]. The product file is not
    touched. *)
Theorem get_string_input_outcome prompt min_length max_length s :
  match get_string_input prompt min_length max_length s with
  | (Reply x, s') =>
      ∃ skipped,
        stdin s = skipped ++ x :: stdin s'
        ∧ Forall (λ l, within_length min_length max_length l = false) skipped
        ∧ within_length min_length max_length x = true
        ∧ length (shown s') = (length (shown s) + 2 * length skipped + 1)%nat
        ∧ disk s' = disk s
  | (EOFError, s') =>
      Forall (λ l, within_length min_length max_length l = false) (stdin s)
      ∧ stdin s' = [] ∧ disk s' = disk s
  | (Raised _, _) | (Unfinished, _) => False
  end.
Proof.
  rewrite get_string_input_unfold.
  destruct (first_accepted _ _) as [[[[skipped x] a] rest]|] eqn:Ef.
  - apply first_accepted_some in Ef as (Hl & Hsk & Hx).
    exists skipped. cbn [stdin shown disk].
    assert (a = x ∧ within_length min_length max_length x = true) as [-> Hw].
    { unfold accepted_string in Hx. case_match; by simplify_eq. }
    split; [done|]. split.
    { eapply Forall_impl; [exact Hsk|]. cbn. intros l.
      unfold accepted_string. by case_match. }
    split; [done|]. split; [|done].
    apply (returning_transcript_length _ _ _ _ _ _ _
             (string_messages_length _ _) Hsk Hx).
  - apply first_accepted_none in Ef. cbn [stdin disk]. split; [|done].
    eapply Forall_impl; [exact Ef|]. cbn. intros l.
    unfold accepted_string. by case_match.
Qed.

(** X2. [get_int_input] returns the integer of the first line that reads as
    one within the bounds; a line that is not an integer, or is out of
    the bounds, is answered by one message and the next is read. With no
    such line the loop ends with [EOFError]; it never lets the
    [ValueError] of [int] out. *)
Theorem get_int_input_outcome prompt min_val max_val s :
  match get_int_input prompt min_val max_val s with
  | (Reply v, s') =>
      ∃ skipped x,
        stdin s = skipped ++ x :: stdin s'
        ∧ Forall (λ l, accepted_int min_val max_val l = None) skipped
        ∧ PyInt.int x = Some v
        ∧ within_int min_val max_val v = true
        ∧ length (shown s') = (length (shown s) + 2 * length skipped + 1)%nat
        ∧ disk s' = disk s
  | (EOFError, s') =>
      Forall (λ l, accepted_int min_val max_val l = None) (stdin s)
      ∧ stdin s' = [] ∧ disk s' = disk s
  | (Raised _, _) | (Unfinished, _) => False
  end.
Proof.
  rewrite get_int_input_unfold.
  destruct (first_accepted _ _) as [[[[skipped x] a] rest]|] eqn:Ef.
  - apply first_accepted_some in Ef as (Hl & Hsk & Hx).
    exists skipped, x. cbn [stdin shown disk].
    split; [done|]. split; [done|].
    assert (PyInt.int x = Some a ∧ within_int min_val max_val a = true) as [Hi Hw].
    { unfold accepted_int in Hx. destruct (PyInt.int x); [|done].
      cbn in Hx. case_match; by simplify_eq. }
    split; [done|]. split; [done|]. split; [|done].
    apply (returning_transcript_length _ _ _ _ _ _ _
             (int_messages_length _ _) Hsk Hx).
  - apply first_accepted_none in Ef. by cbn [stdin disk].
Qed.

(** X3. [get_float_input] returns the float of the first line that [float]
    reads and that is neither below the lower bound nor above the upper
    one; with no such line it ends with [EOFError]. *)
Theorem get_float_input_outcome prompt min_val max_val s :
  match get_float_input prompt min_val max_val s with
  | (Reply v, s') =>
      ∃ skipped x,
        stdin s = skipped ++ x :: stdin s'
        ∧ Forall (λ l, accepted_float min_val max_val l = None) skipped
        ∧ float_of_str x = Some v
        ∧ within_float min_val max_val v = true
        ∧ length (shown s') = (length (shown s) + 2 * length skipped + 1)%nat
        ∧ disk s' = disk s
  | (EOFError, s') =>
      Forall (λ l, accepted_float min_val max_val l = None) (stdin s)
      ∧ stdin s' = [] ∧ disk s' = disk s
  | (Raised _, _) | (Unfinished, _) => False
  end.
Proof.
  rewrite get_float_input_unfold.
  destruct (first_accepted _ _) as [[[[skipped x] a] rest]|] eqn:Ef.
  - apply first_accepted_some in Ef as (Hl & Hsk & Hx).
    exists skipped, x. cbn [stdin shown disk].
    split; [done|]. split; [done|].
    assert (float_of_str x = Some a ∧ within_float min_val max_val a = true)
      as [Hi Hw].
    { unfold accepted_float in Hx. destruct (float_of_str x); [|done].
      cbn in Hx. case_match; by simplify_eq. }
    split; [done|]. split; [done|]. split; [|done].
    apply (returning_transcript_length _ _ _ _ _ _ _
             (float_messages_length _ _) Hsk Hx).
  - apply first_accepted_none in Ef. by cbn [stdin disk].
Qed.
End ValidatorOutcomes.

(** ** The tags of take_constructor_input *)

Lemma str_split_not_nil sep s : str_split sep s ≠ [].
Proof.
  destruct s as [|a r]; cbn; [done|].
  destruct (Ascii.eqb a sep); [done|]. by destruct (str_split sep r).
Qed.

(** Splitting distributes over a separator. *)
Lemma str_split_app sep a b :
  str_split sep (a +:+ String sep b) = str_split sep a ++ str_split sep b.
Proof.
  induction a as [|c r IH].
  - change (EmptyString +:+ String sep b) with (String sep b). cbn.
    by rewrite Ascii.eqb_refl.
  - change (String c r +:+ String sep b) with (String c (r +:+ String sep b)).
    cbn. destruct (Ascii.eqb c sep); [by rewrite IH|].
    rewrite IH. pose proof (str_split_not_nil sep r).
    by destruct (str_split sep r).
Qed.

Lemma str_split_no_sep sep s : has_char sep s = false → str_split sep s = [s].
Proof.
  induction s as [|c r IH]; cbn; [done|].
  intros [Hc Hr]%orb_false_iff. by rewrite Hc, (IH Hr).
Qed.

Lemma str_lstrip_empty s : str_lstrip s = EmptyString ↔ has_visible s = false.
Proof.
  induction s as [|c r IH]; cbn; [done|].
  destruct (isspace c); cbn; [done|]. split; discriminate.
Qed.

Lemma str_rstrip_empty s : str_rstrip s = EmptyString ↔ has_visible s = false.
Proof.
  induction s as [|c r IH]; cbn; [done|].
  destruct (str_rstrip r) eqn:Er.
  - destruct (isspace c); cbn; [tauto|]. split; discriminate.
  - split; [discriminate|]. intros [_ Hr]%orb_false_iff.
    apply IH in Hr. discriminate Hr.
Qed.

Lemma has_visible_lstrip s : has_visible (str_lstrip s) = has_visible s.
Proof.
  induction s as [|c r IH]; cbn; [done|].
  destruct (isspace c) eqn:Ec; cbn; [done|]. by rewrite Ec.
Qed.

Lemma truthy_strip s : truthy (str_strip s) = has_visible s.
Proof.
  unfold truthy, str_strip.
  destruct (has_visible s) eqn:Hv.
  - apply negb_true_iff, String.eqb_neq. intros E%str_rstrip_empty.
    rewrite has_visible_lstrip in E. congruence.
  - apply negb_false_iff, String.eqb_eq, str_rstrip_empty.
    by rewrite has_visible_lstrip.
Qed.

(** X4. The tags check. A text is accepted when both sides of each ["|"] are,
    and a text without ["|"] when it has a character that is not white
    space: so the empty text, a ["|"] at either end and two ["|"] in a row
    are refused. *)
Theorem all_tags_nonblank_spec :
  (∀ a b, all_tags_nonblank (a +:+ String "|" b)
          = all_tags_nonblank a && all_tags_nonblank b)
  ∧ (∀ s, has_char "|" s = false → all_tags_nonblank s = has_visible s)
  ∧ all_tags_nonblank "" = false.
Proof.
  unfold all_tags_nonblank. repeat split.
  - intros a b. by rewrite str_split_app, forallb_app.
  - intros s Hs. rewrite (str_split_no_sep _ _ Hs). cbn.
    by rewrite truthy_strip, andb_true_r.
Qed.

Lemma all_tags_nonblank_spec_witness :
  has_char "|" "tag1" = false
  ∧ all_tags_nonblank "tag1" = has_visible "tag1"
  ∧ all_tags_nonblank ("tag1" +:+ String "|" " ")
    = all_tags_nonblank "tag1" && all_tags_nonblank " ".
Proof.
  split; [reflexivity|]. split.
  - apply (proj1 (proj2 all_tags_nonblank_spec) "tag1"). reflexivity.
  - apply (proj1 all_tags_nonblank_spec "tag1" " ").
Defined.

(** ** take_constructor_input *)

Section TakeConstructorInputFacts.
Context {F : Type} `{PyFloat F} `{PyFloatOrd F}.
Implicit Types (s : session F).







End TakeConstructorInputFacts.

(** ** encrypt and decrypt *)

Module PasswordFacts.
Import Password.

Lemma chr_ok i : is_code_point i = true → chr i = Chr i.
Proof.
  unfold chr, is_code_point. intros Hi.
  assert ((i <? -2147483648) || (2147483647 <? i) = false) as -> by lia.
  by rewrite Hi.
Qed.

Lemma chr_raise i : is_code_point i = false → ∃ e, chr i = ChrRaise e.
Proof.
  unfold chr. intros ->. destruct ((i <? -2147483648) || (2147483647 <? i)); eauto.
Qed.

Lemma join_chr_ok f s :
  forallb (λ c, is_code_point (f c)) s = true → join_chr f s = Chr (map f s).
Proof.
  induction s as [|c s IH]; cbn; [done|].
  intros [Hc Hs]%andb_true_iff. by rewrite (chr_ok _ Hc), (IH Hs).
Qed.

Lemma join_chr_raise f s :
  forallb (λ c, is_code_point (f c)) s = false → ∃ e, join_chr f s = ChrRaise e.
Proof.
  induction s as [|c s IH]; cbn; [done|].
  destruct (is_code_point (f c)) eqn:Hc; cbn.
  - intros Hs. rewrite (chr_ok _ Hc). destruct (IH Hs) as [e ->]. eauto.
  - intros _. destruct (chr_raise _ Hc) as [e ->]. eauto.
Qed.

(** X7. [encrypt] returns exactly when every character moved by the shift is
    still a code point, and then it has moved each character by the
    shift; otherwise the [chr] of the first character that leaves the
    range raises. *)
Theorem encrypt_outcome (s : list Z) (shift : Z) :
  match encrypt s shift with
  | Chr t =>
      t = map (λ c, c + shift) s
      ∧ forallb (λ c, is_code_point (c + shift)) s = true
  | ChrRaise _ => forallb (λ c, is_code_point (c + shift)) s = false
  end.
Proof.
  unfold encrypt.
  destruct (forallb (λ c, is_code_point (c + shift)) s) eqn:Hall.
  - by rewrite (join_chr_ok _ _ Hall).
  - by destruct (join_chr_raise _ _ Hall) as [e ->].
Qed.

Lemma map_shift_back (s : list Z) k : map (λ c, c - k) (map (λ c, c + k) s) = s.
Proof.
  rewrite map_map. rewrite <- (map_id s) at 2. apply map_ext. intros c. lia.
Qed.

Lemma map_shift_forth (s : list Z) k : map (λ c, c + k) (map (λ c, c - k) s) = s.
Proof.
  rewrite map_map. rewrite <- (map_id s) at 2. apply map_ext. intros c. lia.
Qed.

Lemma join_chr_inv f s t :
  join_chr f s = Chr t →
  t = map f s ∧ forallb (λ c, is_code_point (f c)) s = true.
Proof.
  destruct (forallb (λ c, is_code_point (f c)) s) eqn:Hall.
  - rewrite (join_chr_ok _ _ Hall). by intros [= <-].
  - destruct (join_chr_raise _ _ Hall) as [e ->]. discriminate.
Qed.

(** X8. [decrypt] undoes [encrypt] and [encrypt] undoes [decrypt], for the
    same shift and for every [str] on which the first of the two
    returns. *)
Theorem encrypt_decrypt_inverse (s t : list Z) (shift : Z) :
  (is_str s = true → encrypt s shift = Chr t →
     decrypt t shift = Chr s ∧ is_str t = true ∧ length t = length s)
  ∧ (is_str t = true → decrypt t shift = Chr s →
     encrypt s shift = Chr t ∧ is_str s = true ∧ length s = length t).
Proof.
  unfold encrypt, decrypt, is_str. split.
  - intros Hs [-> Hall]%join_chr_inv. split; [|split].
    + rewrite join_chr_ok; [by rewrite map_shift_back|].
      rewrite forallb_forall in *. intros c [c0 [<- Hc0]]%in_map_iff.
      replace (c0 + shift - shift) with c0 by lia. by apply Hs.
    + rewrite forallb_forall in *. intros c [c0 [<- Hc0]]%in_map_iff.
      by apply Hall.
    + by rewrite length_map.
  - intros Ht [-> Hall]%join_chr_inv. split; [|split].
    + rewrite join_chr_ok; [by rewrite map_shift_forth|].
      rewrite forallb_forall in *. intros c [c0 [<- Hc0]]%in_map_iff.
      replace (c0 - shift + shift) with c0 by lia. by apply Ht.
    + rewrite forallb_forall in *. intros c [c0 [<- Hc0]]%in_map_iff.
      by apply Hall.
    + by rewrite length_map.
Qed.

Lemma encrypt_decrypt_inverse_witness :
  (is_str [72; 105] = true ∧ encrypt [72; 105] 3 = Chr [75; 108]
   ∧ decrypt [75; 108] 3 = Chr [72; 105])
  ∧ (is_str [75; 108] = true ∧ decrypt [75; 108] 3 = Chr [72; 105]
     ∧ encrypt [72; 105] 3 = Chr [75; 108]).
Proof.
  split.
  - split; [reflexivity|]. split; [reflexivity|].
    apply (proj1 (encrypt_decrypt_inverse [72; 105] [75; 108] 3));
      reflexivity.
  - split; [reflexivity|]. split; [reflexivity|].
    apply (proj2 (encrypt_decrypt_inverse [72; 105] [75; 108] 3));
      reflexivity.
Defined.

End PasswordFacts.

(** ** More on the store *)

Section StoreFacts.
Context {F : Type} `{PyFloat F}.
Implicit Types (self e p : Product F) (rows : list (list string)) (w : world).



(** The scan of [get_product] returns a product with the id it looks
    for. *)
Lemma find_product_pid target (reader : list (gmap string (option string))) p :
  find_product target reader = Ok (Some p) → pid p = target.
Proof.
  induction reader as [|row reader IH]; cbn [find_product]; [done|].
  destruct (dict_getitem row "pid") as [c|] eqn:Ec; [|done]. cbn [rbind].
  destruct (py_int c) as [n|] eqn:En; [|done]. cbn [rbind].
  destruct (Z.eqb_spec n target) as [->|_]; [|done].
  unfold hydrate. rewrite Ec. cbn [rbind]. rewrite En. cbn [rbind].
  destruct (dict_getitem row "is_active"); cbn [rbind]; [|done].
  destruct (dict_getitem row "inventory") as [c2|]; cbn [rbind]; [|done].
  destruct (py_int c2); cbn [rbind]; [|done].
  destruct (dict_getitem row "pname"); cbn [rbind]; [|done].
  destruct (dict_getitem row "pdescription"); cbn [rbind]; [|done].
  destruct (dict_getitem row "pprice") as [c5|]; cbn [rbind]; [|done].
  destruct (py_float c5); cbn [rbind]; [|done].
  destruct (dict_getitem row "added_date"); cbn [rbind]; [|done].
  destruct (dict_getitem row "ptags"); cbn [rbind]; [|done].
  by intros [= <-].
Qed.

(** X10. [get_product] never raises and never writes. What it returns has the
    id that was asked for, and then nothing is printed; when it returns
    [None] exactly one line is printed. *)
Theorem get_product_outcome target w :
  match get_product (F:=F) target w with
  | (Ok (Some p), w') => pid p = target ∧ w' = w
  | (Ok None, w') => ∃ d, w' = emit d w
  | (Raise _, _) => False
  end.
Proof.
  rewrite get_product_unfold. destruct (file w) as [rows|]; [|by eexists].
  destruct (find_product target (DictReader rows)) as [[p|]|err] eqn:Ef.
  - split; [|done]. by apply find_product_pid in Ef.
  - by eexists.
  - destruct err; by eexists.
Qed.
End StoreFacts.

Section RewriteFacts.
Context {F : Type} `{PyFloat F}.
Implicit Types (self e p : Product F) (rows : list (list string)) (w : world).







End RewriteFacts.

Section LookupFacts.
Context {F : Type} `{PyFloat F}.
Implicit Types (self e p : Product F) (rows : list (list string)) (w : world).



End LookupFacts.

Section CreateAll.
Context {F : Type} `{PyFloat F}.
Implicit Types (self e p : Product F) (rows : list (list string)) (w : world).






End CreateAll.

(** * The rest of the code at concrete inputs *)

Section ConcreteRest.
Import ShortDecimal ShortDecimalOrd Example ExampleSession.

(** An interactive creation: one answer is refused, five are taken. *)
Example scenario_take_constructor_input :
  take_constructor_input typing
  = (Reply widget,
     Session []
       [Prompt "Enter product name: "; StringTooShort 3;
        Prompt "Enter product name: ";
        Prompt "Enter product description: ";
        Prompt "Enter inventory count: ";
        Prompt "Enter product price: ";
        Prompt "Enter product tags (separated by '|'): "]
       one_widget).
Proof. reflexivity. Qed.





End ConcreteRest.

(** ** The patterns of the validator *)

Module ReFacts.
Import Re.

Lemma app_cons a (r x : string) : String a r +:+ x = String a (r +:+ x).
Proof. reflexivity. Qed.

Lemma app_empty (x : string) : EmptyString +:+ x = x.
Proof. reflexivity. Qed.

Lemma app_empty_r (x : string) : x +:+ EmptyString = x.
Proof. induction x as [|a x IH]; [done|]. by rewrite app_cons, IH. Qed.

Lemma app_assoc (x y z : string) : (x +:+ y) +:+ z = x +:+ (y +:+ z).
Proof. induction x as [|a x IH]; [done|]. by rewrite !app_cons, IH. Qed.

Lemma length_app (x y : string) :
  String.length (x +:+ y) = (String.length x + String.length y)%nat.
Proof. induction x as [|a x IH]; [done|]. rewrite app_cons. cbn. by rewrite IH. Qed.

Lemma all_in_app p (x y : string) : all_in p (x +:+ y) = all_in p x && all_in p y.
Proof.
  induction x as [|a x IH]; [done|]. rewrite app_cons. cbn.
  by rewrite IH, andb_assoc.
Qed.

(** A bounded repetition of a class, then [k]: the text begins with a
    run of the class whose length is within the bounds and after which
    [k] holds. *)
Lemma repeat_then_spec lo hi p s k :
  repeat_then lo hi p s k = true ↔
  ∃ run rest,
    s = run +:+ rest ∧ (lo ≤ String.length run)%nat
    ∧ (∀ h, hi = Some h → (String.length run ≤ h)%nat)
    ∧ all_in p run = true ∧ k rest = true.
Proof.
  split.
  - revert lo hi. induction s as [|a s IH]; intros lo hi; cbn [repeat_then].
    + destruct lo; [|done].
      destruct (k EmptyString) eqn:Hk; [|done]. intros _.
      exists EmptyString, EmptyString. repeat split; try done. cbn. lia.
    + destruct (match lo with O => k (String a s) | S _ => false end) eqn:H0.
      * intros _. destruct lo; [|done].
        exists EmptyString, (String a s). repeat split; try done. cbn. lia.
      * assert (p a = true ∧ hi ≠ Some O
                ∧ repeat_then (Nat.pred lo) (Nat.pred <$> hi) p s k = true
                → ∃ run rest, String a s = run +:+ rest
                    ∧ (lo ≤ String.length run)%nat
                    ∧ (∀ h, hi = Some h → (String.length run ≤ h)%nat)
                    ∧ all_in p run = true ∧ k rest = true) as Hstep.
        { intros (Hp & Hhi & Hrec).
          destruct (IH _ _ Hrec) as (run & rest & -> & Hlo & Hh & Hall & Hk).
          exists (String a run), rest. rewrite app_cons. cbn.
          repeat split; try done; [lia| |by rewrite Hp].
          intros h ->. destruct h as [|h]; [done|].
          specialize (Hh h eq_refl). lia. }
        destruct hi as [[|h]|]; [done| |];
          (destruct (p a) eqn:Hp; [|done]); intros Hrec; by apply Hstep.
  - intros (run & rest & -> & Hlo & Hh & Hall & Hk).
    revert lo hi Hlo Hh. induction run as [|a run IH]; intros lo hi Hlo Hh.
    + cbn in Hlo. assert (lo = O) as -> by lia. rewrite app_empty.
      destruct rest; cbn [repeat_then]; by rewrite Hk.
    + rewrite app_cons. cbn [repeat_then].
      destruct (match lo with O => _ | S _ => false end); [done|].
      cbn in Hall. apply andb_true_iff in Hall as [Hp Hall]. rewrite Hp.
      assert (repeat_then (Nat.pred lo) (Nat.pred <$> hi) p (run +:+ rest) k
              = true) as ->.
      { apply IH; [done|cbn in Hlo; lia|].
        intros h Eh. destruct hi as [h0|]; [|done]. injection Eh as <-.
        specialize (Hh h0 eq_refl). cbn in Hh. lia. }
      destruct hi as [[|h]|]; [|done..].
      specialize (Hh O eq_refl). cbn in Hh. lia.
Qed.

Lemma lit_then_spec c s k :
  match_then (Lit c) s k = true ↔ ∃ rest, s = String c rest ∧ k rest = true.
Proof.
  cbn. destruct s as [|a s].
  - split; [done|]. by intros (rest & Hs & _).
  - destruct (Ascii.eqb_spec a c) as [->|Hne]; split.
    + intros Hk. by exists s.
    + by intros (rest & [= <-] & Hk).
    + done.
    + intros (rest & [= Ha _] & _). by destruct Hne.
Qed.

Lemma class_then_spec p s k :
  match_then (CharIn p) s k = true ↔
  ∃ a rest, s = String a rest ∧ p a = true ∧ k rest = true.
Proof.
  cbn. destruct s as [|a s].
  - split; [done|]. by intros (a & rest & Hs & _).
  - destruct (p a) eqn:Hp; split.
    + intros Hk. by exists a, s.
    + by intros (a' & rest & [= <- <-] & _ & Hk).
    + done.
    + intros (a' & rest & [= <- <-] & Hp' & _). congruence.
Qed.

Lemma dollar_then_spec s k :
  match_then Dollar s k = true ↔
  (s = EmptyString ∨ s = String "010" EmptyString) ∧ k s = true.
Proof.
  cbn. destruct (String.eqb_spec s EmptyString) as [->|H1]; cbn.
  - split; [intros Hk; split; [by left|done]|by intros [_ Hk]].
  - destruct (String.eqb_spec s (String "010" EmptyString)) as [->|H2].
    + split; [intros Hk; split; [by right|done]|by intros [_ Hk]].
    + split; [done|]. intros [[Hs|Hs] _]; by subst.
Qed.

Lemma seq_cons_then r r' rs s k :
  match_then (seq (r :: r' :: rs)) s k
  = match_then r s (λ rest, match_then (seq (r' :: rs)) rest k).
Proof. reflexivity. Qed.

Lemma seq_one_then r s k : match_then (seq [r]) s k = match_then r s k.
Proof. reflexivity. Qed.

Lemma opt_then_spec r s k :
  match_then (Opt r) s k = true ↔ match_then r s k = true ∨ k s = true.
Proof.
  cbn. destruct (match_then r s k).
  - split; [by left|done].
  - split; [by right|]. by intros [?|?].
Qed.

Lemma look_then_spec r s k :
  match_then (Look r) s k = true ↔
  match_then r s (λ _, true) = true ∧ k s = true.
Proof.
  cbn. destruct (match_then r s (λ _, true)).
  - split; [done|by intros [_ ?]].
  - split; [done|by intros [? _]].
Qed.

Lemma repeat_as_match lo hi p s k :
  match_then (Repeat lo hi p) s k = repeat_then lo hi p s k.
Proof. reflexivity. Qed.

End ReFacts.

Section PhonePattern.
Import Re ReFacts.

(** What follows the optional prefix in [phone_pattern]. *)
Lemma phone_digits_spec s :
  match_then (seq [CharIn (between "6" "9"); Repeat 9 (Some 9%nat) digit; Dollar])
    s (λ _, true) = true ↔
  ∃ d ds tail,
    s = String d (ds +:+ tail)
    ∧ between "6" "9" d = true
    ∧ String.length ds = 9%nat ∧ all_in digit ds = true
    ∧ (tail = EmptyString ∨ tail = String "010" EmptyString).
Proof.
  rewrite seq_cons_then, class_then_spec. split.
  - intros (d & rest & -> & Hd & Hrest).
    rewrite seq_cons_then, repeat_as_match in Hrest.
    apply repeat_then_spec in Hrest as (ds & tail & -> & Hlo & Hhi & Hds & Htail).
    cbv beta in Htail. rewrite seq_one_then in Htail.
    apply dollar_then_spec in Htail as [Htail _].
    exists d, ds, tail. specialize (Hhi _ eq_refl).
    repeat split; try done. lia.
  - intros (d & ds & tail & -> & Hd & Hlen & Hds & Htail).
    exists d, (ds +:+ tail). repeat split; try done.
    rewrite seq_cons_then, repeat_as_match.
    apply repeat_then_spec. exists ds, tail.
    repeat split; try done; [lia| |].
    + intros h [= <-]. lia.
    + cbv beta. rewrite seq_one_then. by apply dollar_then_spec.
Qed.

(** The prefix of [phone_pattern]: [+91], then at most one character of
    the class. *)
Lemma phone_prefix_spec p s k :
  match_then (seq [Lit "+"; Lit "9"; Lit "1"; Repeat 0 (Some 1%nat) p]) s k = true ↔
  ∃ sep rest,
    s = String "+" (String "9" (String "1" (sep +:+ rest)))
    ∧ (sep = EmptyString ∨ ∃ c, p c = true ∧ sep = String c EmptyString)
    ∧ k rest = true.
Proof.
  rewrite seq_cons_then, lit_then_spec. split.
  - intros (r1 & -> & Hm). cbv beta in Hm. rewrite seq_cons_then in Hm.
    apply lit_then_spec in Hm as (r2 & -> & Hm).
    cbv beta in Hm. rewrite seq_cons_then in Hm.
    apply lit_then_spec in Hm as (r3 & -> & Hm).
    cbv beta in Hm. rewrite seq_one_then, repeat_as_match in Hm.
    apply repeat_then_spec in Hm as (run & rest & -> & _ & Hhi & Hrun & Hk).
    specialize (Hhi _ eq_refl). exists run, rest. repeat split; try done.
    destruct run as [|c [|c' run]]; [by left| |cbn in Hhi; lia].
    right. exists c. split; [|done]. cbn in Hrun. by rewrite andb_true_r in Hrun.
  - intros (sep & rest & -> & Hsep & Hk).
    eexists. split; [reflexivity|]. cbv beta.
    rewrite seq_cons_then. apply lit_then_spec. eexists. split; [reflexivity|].
    cbv beta.
    rewrite seq_cons_then. apply lit_then_spec. eexists. split; [reflexivity|].
    cbv beta. rewrite seq_one_then, repeat_as_match.
    apply repeat_then_spec. exists sep, rest.
    destruct Hsep as [->|(c & Hc & ->)].
    + repeat split; try done; cbn; lia.
    + repeat split; try done; [cbn; lia|intros h [= <-]; cbn; lia|].
      cbn. by rewrite Hc.
Qed.

(** X16. [is_valid_phone] accepts exactly: ten digits of which the first
    is 6, 7, 8 or 9; before them nothing, [+91], or [+91] and one hyphen
    or white space character; after them nothing or one line feed. *)
Theorem is_valid_phone_spec phone :
  is_valid_phone phone = true ↔
  ∃ prefix d ds tail,
    phone = prefix +:+ String d ds +:+ tail
    ∧ (prefix = EmptyString ∨ prefix = "+91"
       ∨ ∃ c, (c = "-"%char ∨ isspace c = true)
              ∧ prefix = String "+" (String "9" (String "1" (String c EmptyString))))
    ∧ between "6" "9" d = true
    ∧ String.length ds = 9%nat ∧ all_in digit ds = true
    ∧ (tail = EmptyString ∨ tail = String "010" EmptyString).
Proof.
  unfold is_valid_phone, matches, phone_pattern.
  rewrite seq_cons_then, opt_then_spec, phone_prefix_spec, phone_digits_spec.
  split.
  - intros [(sep & rest & -> & Hsep & Hd)|Hd].
    + apply phone_digits_spec in Hd as (d & ds & tail & -> & Hd & Hlen & Hds & Ht).
      destruct Hsep as [->|(c & Hc & ->)].
      * exists "+91", d, ds, tail. repeat split; try done. tauto.
      * exists (String "+" (String "9" (String "1" (String c EmptyString)))),
          d, ds, tail.
        repeat split; try done. right. right. exists c. split; [|done].
        apply orb_true_iff in Hc as [Hc|Hc]; [left|by right].
        unfold one_of in Hc. cbn [has_char] in Hc. rewrite orb_false_r in Hc.
        symmetry. by apply Ascii.eqb_eq.
    + destruct Hd as (d & ds & tail & -> & Hd & Hlen & Hds & Ht).
      exists EmptyString, d, ds, tail. repeat split; try done. tauto.
  - intros (prefix & d & ds & tail & -> & Hprefix & Hd & Hlen & Hds & Ht).
    assert (match_then
              (seq [CharIn (between "6" "9"); Repeat 9 (Some 9%nat) digit; Dollar])
              (String d (ds +:+ tail)) (λ _, true) = true) as Hdig.
    { apply phone_digits_spec. by exists d, ds, tail. }
    destruct Hprefix as [->|[->|(c & Hc & ->)]].
    + right. by exists d, ds, tail.
    + left. exists EmptyString, (String d (ds +:+ tail)). repeat split; try done.
      by left.
    + left. exists (String c EmptyString), (String d (ds +:+ tail)).
      repeat split; try done. right. exists c. split; [|done].
      apply orb_true_iff. destruct Hc as [->|Hc]; [by left|by right].
Qed.

Lemma is_valid_phone_spec_witness :
  is_valid_phone "+91-9876543210" = true.
Proof.
  apply (proj2 (is_valid_phone_spec "+91-9876543210")).
  exists "+91-", "9"%char, "876543210", EmptyString.
  split; [reflexivity|]. split.
  - right. right. exists "-"%char. split; [by left|reflexivity].
  - repeat split; try reflexivity. by left.
Defined.
End PhonePattern.

Section EmailPattern.
Import Re ReFacts.

Lemma all_in_impl (p q : ascii → bool) s :
  (∀ a, p a = true → q a = true) → all_in p s = true → all_in q s = true.
Proof.
  intros Hpq. induction s as [|a s IH]; [done|]. cbn.
  intros [Ha Hs]%andb_true_iff. by rewrite (Hpq _ Ha), IH.
Qed.

Lemma all_in_has_char (p : ascii → bool) c s :
  (∀ a, p a = true → Ascii.eqb a c = false) →
  all_in p s = true → has_char c s = false.
Proof.
  intros Hp. induction s as [|a s IH]; [done|]. cbn.
  intros [Ha Hs]%andb_true_iff. by rewrite (Hp _ Ha), IH.
Qed.

Lemma has_char_app c (x y : string) :
  has_char c (x +:+ y) = has_char c x || has_char c y.
Proof.
  induction x as [|a x IH]; [done|]. rewrite app_cons. cbn.
  by rewrite IH, orb_assoc.
Qed.

(** A text is cut in one way only at a character that occurs once. *)
Lemma split_unique c (x y x' y' : string) :
  x +:+ String c y = x' +:+ String c y' →
  has_char c x' = false → has_char c y' = false →
  x = x' ∧ y = y'.
Proof.
  revert x. induction x' as [|a' x' IH]; intros x Heq Hx' Hy'.
  - rewrite app_empty in Heq. destruct x as [|a x].
    + rewrite app_empty in Heq. by injection Heq as ->.
    + rewrite app_cons in Heq. injection Heq as -> <-.
      rewrite has_char_app in Hy'. cbn in Hy'.
      rewrite Ascii.eqb_refl, orb_true_r in Hy'. done.
  - cbn in Hx'. apply orb_false_iff in Hx' as [Ha' Hx'].
    rewrite app_cons in Heq. destruct x as [|a x].
    + rewrite app_empty in Heq. injection Heq as -> _.
      by rewrite Ascii.eqb_refl in Ha'.
    + rewrite app_cons in Heq. injection Heq as -> Heq.
      by destruct (IH _ Heq Hx' Hy') as [-> ->].
Qed.

(** Two lines that end where [$] holds and are the same text are the
    same line. *)
Lemma line_unique (x t x' t' : string) :
  x +:+ t = x' +:+ t' →
  all_in dot x = true → all_in dot x' = true →
  (t = EmptyString ∨ t = String "010" EmptyString) →
  (t' = EmptyString ∨ t' = String "010" EmptyString) →
  x = x' ∧ t = t'.
Proof.
  revert x'. induction x as [|a x IH]; intros x' Heq Hx Hx' Ht Ht'.
  - rewrite app_empty in Heq. destruct x' as [|a' x'].
    + by rewrite app_empty in Heq.
    + rewrite app_cons in Heq. cbn in Hx'. apply andb_true_iff in Hx' as [Ha' _].
      destruct Ht as [->| ->]; [done|]. injection Heq as <- _. done.
  - cbn in Hx. apply andb_true_iff in Hx as [Ha Hx]. rewrite app_cons in Heq.
    destruct x' as [|a' x'].
    + rewrite app_empty in Heq. destruct Ht' as [->| ->]; [done|].
      injection Heq as -> _. done.
    + rewrite app_cons in Heq. injection Heq as -> Heq.
      cbn in Hx'. apply andb_true_iff in Hx' as [_ Hx'].
      by destruct (IH _ Heq Hx Hx' Ht Ht') as [-> ->].
Qed.

(** The characters of an address are none of them a line feed, and
    the [@] is in neither class. *)
Lemma local_char_plain a :
  local_char a = true → dot a = true ∧ Ascii.eqb a "@" = false.
Proof. destruct a as [[] [] [] [] [] [] [] []]; by vm_compute. Qed.

Lemma domain_char_plain a :
  domain_char a = true → dot a = true ∧ Ascii.eqb a "@" = false.
Proof. destruct a as [[] [] [] [] [] [] [] []]; by vm_compute. Qed.

Lemma letter_plain a :
  letter a = true → dot a = true ∧ Ascii.eqb a "@" = false.
Proof. destruct a as [[] [] [] [] [] [] [] []]; by vm_compute. Qed.

(** The first lookahead of [email_pattern]. *)
Lemma email_look1_spec s :
  match_then (seq [Repeat 1 (Some 64%nat) dot; Lit "@";
                   Repeat 1 (Some 255%nat) dot; Dollar]) s (λ _, true) = true ↔
  ∃ r1 r2 t,
    s = r1 +:+ String "@" (r2 +:+ t)
    ∧ (1 ≤ String.length r1 ≤ 64)%nat ∧ all_in dot r1 = true
    ∧ (1 ≤ String.length r2 ≤ 255)%nat ∧ all_in dot r2 = true
    ∧ (t = EmptyString ∨ t = String "010" EmptyString).
Proof.
  rewrite seq_cons_then, repeat_as_match, repeat_then_spec. split.
  - intros (r1 & rest & -> & Hlo1 & Hhi1 & Hr1 & Hm).
    cbv beta in Hm. rewrite seq_cons_then in Hm.
    apply lit_then_spec in Hm as (rest' & -> & Hm).
    cbv beta in Hm. rewrite seq_cons_then, repeat_as_match in Hm.
    apply repeat_then_spec in Hm as (r2 & t & -> & Hlo2 & Hhi2 & Hr2 & Hm).
    cbv beta in Hm. rewrite seq_one_then in Hm.
    apply dollar_then_spec in Hm as [Ht _].
    specialize (Hhi1 _ eq_refl). specialize (Hhi2 _ eq_refl).
    exists r1, r2, t. repeat split; done.
  - intros (r1 & r2 & t & -> & [Hlo1 Hhi1] & Hr1 & [Hlo2 Hhi2] & Hr2 & Ht).
    exists r1, (String "@" (r2 +:+ t)).
    repeat split; try done; [by intros h [= <-]|].
    cbv beta. rewrite seq_cons_then. apply lit_then_spec.
    eexists. split; [reflexivity|].
    cbv beta. rewrite seq_cons_then, repeat_as_match. apply repeat_then_spec.
    exists r2, t. repeat split; try done; [by intros h [= <-]|].
    cbv beta. rewrite seq_one_then. by apply dollar_then_spec.
Qed.

(** The second lookahead. *)
Lemma email_look2_spec s :
  match_then (seq [Repeat 6 (Some 256%nat) dot; Dollar]) s (λ _, true) = true ↔
  ∃ r t,
    s = r +:+ t
    ∧ (6 ≤ String.length r ≤ 256)%nat ∧ all_in dot r = true
    ∧ (t = EmptyString ∨ t = String "010" EmptyString).
Proof.
  rewrite seq_cons_then, repeat_as_match, repeat_then_spec. split.
  - intros (r & t & -> & Hlo & Hhi & Hr & Hm).
    cbv beta in Hm. rewrite seq_one_then in Hm.
    apply dollar_then_spec in Hm as [Ht _]. specialize (Hhi _ eq_refl).
    exists r, t. repeat split; done.
  - intros (r & t & -> & [Hlo Hhi] & Hr & Ht).
    exists r, t. repeat split; try done; [by intros h [= <-]|].
    cbv beta. rewrite seq_one_then. by apply dollar_then_spec.
Qed.

(** The address itself. *)
Lemma email_body_spec s :
  match_then (seq [Repeat 1 None local_char; Lit "@"; Repeat 1 None domain_char;
                   Lit "."; Repeat 2 None letter; Dollar]) s (λ _, true) = true ↔
  ∃ mailbox domain tld tail,
    s = mailbox +:+ String "@" (domain +:+ String "." (tld +:+ tail))
    ∧ (1 ≤ String.length mailbox)%nat ∧ all_in local_char mailbox = true
    ∧ (1 ≤ String.length domain)%nat ∧ all_in domain_char domain = true
    ∧ (2 ≤ String.length tld)%nat ∧ all_in letter tld = true
    ∧ (tail = EmptyString ∨ tail = String "010" EmptyString).
Proof.
  rewrite seq_cons_then, repeat_as_match, repeat_then_spec. split.
  - intros (mailbox & rest & -> & Hlo1 & _ & Hr1 & Hm).
    cbv beta in Hm. rewrite seq_cons_then in Hm.
    apply lit_then_spec in Hm as (rest' & -> & Hm).
    cbv beta in Hm. rewrite seq_cons_then, repeat_as_match in Hm.
    apply repeat_then_spec in Hm as (domain & rest & -> & Hlo2 & _ & Hr2 & Hm).
    cbv beta in Hm. rewrite seq_cons_then in Hm.
    apply lit_then_spec in Hm as (rest' & -> & Hm).
    cbv beta in Hm. rewrite seq_cons_then, repeat_as_match in Hm.
    apply repeat_then_spec in Hm as (tld & tail & -> & Hlo3 & _ & Hr3 & Hm).
    cbv beta in Hm. rewrite seq_one_then in Hm.
    apply dollar_then_spec in Hm as [Ht _].
    exists mailbox, domain, tld, tail. repeat split; done.
  - intros (mailbox & domain & tld & tail & -> & Hlo1 & Hr1 & Hlo2 & Hr2
            & Hlo3 & Hr3 & Ht).
    eexists mailbox, _. repeat split; try done.
    cbv beta. rewrite seq_cons_then. apply lit_then_spec.
    eexists. split; [reflexivity|].
    cbv beta. rewrite seq_cons_then, repeat_as_match. apply repeat_then_spec.
    eexists domain, _. repeat split; try done.
    cbv beta. rewrite seq_cons_then. apply lit_then_spec.
    eexists. split; [reflexivity|].
    cbv beta. rewrite seq_cons_then, repeat_as_match. apply repeat_then_spec.
    exists tld, tail. repeat split; try done.
    cbv beta. rewrite seq_one_then. by apply dollar_then_spec.
Qed.

(** The part of an address after the [@] has no line feed and no [@]. *)
Lemma email_host_plain domain tld :
  all_in domain_char domain = true → all_in letter tld = true →
  all_in dot (domain +:+ String "." tld) = true
  ∧ has_char "@" (domain +:+ String "." tld) = false.
Proof.
  intros Hd Ht. split.
  - rewrite all_in_app. cbn [all_in].
    rewrite (all_in_impl domain_char dot), (all_in_impl letter dot); try done.
    + intros a. apply letter_plain.
    + intros a. apply domain_char_plain.
  - rewrite has_char_app. cbn [has_char].
    rewrite (all_in_has_char domain_char), (all_in_has_char letter); try done.
    + intros a. apply letter_plain.
    + intros a. apply domain_char_plain.
Qed.

(** X17. [is_valid_email] accepts exactly the texts [mailbox@domain.tld],
    alone or followed by one line feed, in which the mailbox is 1 to 64
    characters of [A-Za-z0-9._%+-], the domain is at least one character
    of [A-Za-z0-9.-], the last part is at least two letters, and the
    whole, without the line feed, is no longer than 256. The bounds 6 and
    255 of the two lookaheads follow from the others. *)
Theorem is_valid_email_spec email :
  is_valid_email email = true ↔
  ∃ mailbox domain tld tail,
    email = mailbox +:+ "@" +:+ domain +:+ "." +:+ tld +:+ tail
    ∧ (1 ≤ String.length mailbox ≤ 64)%nat ∧ all_in local_char mailbox = true
    ∧ (1 ≤ String.length domain)%nat ∧ all_in domain_char domain = true
    ∧ (2 ≤ String.length tld)%nat ∧ all_in letter tld = true
    ∧ (String.length mailbox + String.length domain + String.length tld + 2
       ≤ 256)%nat
    ∧ (tail = EmptyString ∨ tail = String "010" EmptyString).
Proof.
  unfold is_valid_email, matches, email_pattern.
  rewrite seq_cons_then, look_then_spec, email_look1_spec.
  rewrite seq_cons_then, look_then_spec, email_look2_spec, email_body_spec.
  change (?x +:+ "@" +:+ ?y) with (x +:+ String "@" y).
  change (?x +:+ "." +:+ ?y) with (x +:+ String "." y).
  split.
  - intros [(r1 & r2 & t & Hs1 & [_ Hr1] & _ & _)
            [(r & t' & Hs2 & [_ Hr] & Hdot & Ht')
             (mailbox & domain & tld & tail & -> & Hlo1 & Hm & Hlo2 & Hd
              & Hlo3 & Htld & Ht)]].
    destruct (email_host_plain _ _ Hd Htld) as [Hhost Hat].
    exists mailbox, domain, tld, tail. repeat split; try done.
    + replace (domain +:+ String "." (tld +:+ tail))
        with ((domain +:+ String "." tld) +:+ tail) in Hs1
        by (by rewrite app_assoc, app_cons).
      symmetry in Hs1. apply split_unique in Hs1 as [-> _]; [done| |].
      * eapply all_in_has_char; [|exact Hm]. intros a. apply local_char_plain.
      * rewrite has_char_app, Hat. by destruct Ht as [-> | ->].
    + replace (mailbox +:+ String "@" (domain +:+ String "." (tld +:+ tail)))
        with ((mailbox +:+ String "@" (domain +:+ String "." tld)) +:+ tail)
        in Hs2 by (by rewrite !app_assoc, !app_cons, app_assoc, app_cons).
      symmetry in Hs2. apply line_unique in Hs2 as [-> _]; try done.
      * rewrite !length_app in Hr. cbn [String.length] in Hr.
        rewrite length_app in Hr. cbn [String.length] in Hr. lia.
      * rewrite all_in_app. cbn [all_in]. rewrite Hhost, andb_true_r.
        eapply all_in_impl; [|exact Hm]. intros a. apply local_char_plain.
  - intros (mailbox & domain & tld & tail & -> & [Hlo1 Hhi1] & Hm & Hlo2 & Hd
            & Hlo3 & Htld & Hlen & Ht).
    destruct (email_host_plain _ _ Hd Htld) as [Hhost Hat].
    assert (all_in dot mailbox = true) as Hmd.
    { eapply all_in_impl; [|exact Hm]. intros a. apply local_char_plain. }
    split; [|split].
    + exists mailbox, (domain +:+ String "." tld), tail.
      rewrite app_assoc, app_cons. repeat split; try done.
      * rewrite length_app. cbn. lia.
      * rewrite length_app. cbn. lia.
    + exists (mailbox +:+ String "@" (domain +:+ String "." tld)), tail.
      rewrite !app_assoc, !app_cons, app_assoc, app_cons.
      repeat split; try done.
      * rewrite length_app. cbn. rewrite length_app. cbn. lia.
      * rewrite length_app. cbn. rewrite length_app. cbn. lia.
      * rewrite all_in_app. cbn [all_in]. by rewrite Hmd, Hhost.
    + exists mailbox, domain, tld, tail. repeat split; done.
Qed.

Lemma is_valid_email_spec_witness :
  is_valid_email "user@example.com" = true.
Proof.
  apply (proj2 (is_valid_email_spec "user@example.com")).
  exists "user", "example", "com", EmptyString.
  split; [reflexivity|]. split; [cbn; lia|]. split; [reflexivity|].
  split; [cbn; lia|]. split; [reflexivity|]. split; [cbn; lia|].
  split; [reflexivity|]. split; [cbn; lia|]. by left.
Defined.
End EmailPattern.

Section PatternLoops.
Context {F : Type} `{PyFloat F} `{PyFloatOrd F}.
Implicit Types (s : session F).

(** A loop that keeps the first line a test accepts and answers every
    other line with the same message. *)
Lemma filter_loop_unfold (prompt : string) (test : string → bool)
    (msg : console_line F) s :
  while_true (enough_turns s)
    (line <-- input prompt;;
     if test line then io_ret (Some line) else say msg;;; io_ret None) s
  = match first_accepted (λ l, if test l then Some l else None) (stdin s) with
    | Some (skipped, x, a, rest) =>
        (Reply a,
         Session rest
           (shown s ++ transcript prompt (λ l, if test l then [] else [msg])
                         (skipped ++ [x])) (disk s))
    | None =>
        (EOFError,
         Session []
           (shown s ++ transcript prompt (λ l, if test l then [] else [msg])
                         (stdin s) ++ [Prompt prompt]) (disk s))
    end.
Proof.
  unfold enough_turns. rewrite <- (session_eta s) at 2.
  apply (prompt_loop_spec prompt
           (λ l, if test l then io_ret (Some l) else say msg;;; io_ret None));
    [|lia].
  intros l s0. unfold io_bind, say, io_ret.
  destruct (test l); cbn; by rewrite ?app_nil_r, ?session_eta.
Qed.

Lemma filter_loop_outcome (prompt : string) (test : string → bool)
    (msg : console_line F) s :
  match while_true (enough_turns s)
          (line <-- input prompt;;
           if test line then io_ret (Some line) else say msg;;; io_ret None) s
  with
  | (Reply x, s') =>
      ∃ skipped,
        stdin s = skipped ++ x :: stdin s'
        ∧ Forall (λ l, test l = false) skipped
        ∧ test x = true
        ∧ shown s' = shown s ++ flat_map (λ _, [Prompt prompt; msg]) skipped
                       ++ [Prompt prompt]
        ∧ disk s' = disk s
  | (EOFError, s') =>
      Forall (λ l, test l = false) (stdin s)
      ∧ stdin s' = []
      ∧ shown s' = shown s ++ flat_map (λ _, [Prompt prompt; msg]) (stdin s)
                     ++ [Prompt prompt]
      ∧ disk s' = disk s
  | (Raised _, _) | (Unfinished, _) => False
  end.
Proof.
  assert (∀ lines, Forall (λ l, test l = false) lines →
            transcript prompt (λ l, if test l then [] else [msg]) lines
            = flat_map (λ _, [Prompt prompt; msg]) lines) as Htr.
  { induction 1 as [|l lines Hl _ IH]; [done|].
    unfold transcript in *. cbn. by rewrite Hl, IH. }
  rewrite filter_loop_unfold.
  destruct (first_accepted _ _) as [[[[skipped x] a] rest]|] eqn:Ef.
  - apply first_accepted_some in Ef as (Hl & Hsk & Hx).
    assert (a = x ∧ test x = true) as [-> Hw].
    { destruct (test x); by simplify_eq. }
    assert (Forall (λ l, test l = false) skipped) as Hsk'.
    { eapply Forall_impl; [exact Hsk|]. cbn. intros l. by destruct (test l). }
    exists skipped. cbn [stdin shown disk]. repeat split; try done.
    rewrite transcript_app, (Htr _ Hsk'). unfold transcript. cbn.
    by rewrite Hw.
  - apply first_accepted_none in Ef. cbn [stdin shown disk].
    assert (Forall (λ l, test l = false) (stdin s)) as Hsk'.
    { eapply Forall_impl; [exact Ef|]. cbn. intros l. by destruct (test l). }
    repeat split; try done. by rewrite (Htr _ Hsk').
Qed.

(** X18. [get_email_input] returns the first line that [is_valid_email]
    accepts and hands it back as typed. Each line before it is answered by
    the same message and lost; with no address among the lines the loop
    reads them all and ends with the [EOFError] of [input]. *)
Theorem get_email_input_outcome prompt s :
  match get_email_input prompt s with
  | (Reply email, s') =>
      ∃ skipped,
        stdin s = skipped ++ email :: stdin s'
        ∧ Forall (λ l, is_valid_email l = false) skipped
        ∧ is_valid_email email = true
        ∧ shown s' = shown s
                       ++ flat_map (λ _, [Prompt prompt; InvalidEmail]) skipped
                       ++ [Prompt prompt]
        ∧ disk s' = disk s
  | (EOFError, s') =>
      Forall (λ l, is_valid_email l = false) (stdin s)
      ∧ stdin s' = []
      ∧ shown s' = shown s
                     ++ flat_map (λ _, [Prompt prompt; InvalidEmail]) (stdin s)
                     ++ [Prompt prompt]
      ∧ disk s' = disk s
  | (Raised _, _) | (Unfinished, _) => False
  end.
Proof. apply (filter_loop_outcome prompt is_valid_email InvalidEmail). Qed.

(** X19. [get_phone_input] returns the first line that [is_valid_phone]
    accepts, with its prefix and its line feed if it has them: the
    caller gets the text, not the ten digits. *)
Theorem get_phone_input_outcome prompt s :
  match get_phone_input prompt s with
  | (Reply phone, s') =>
      ∃ skipped,
        stdin s = skipped ++ phone :: stdin s'
        ∧ Forall (λ l, is_valid_phone l = false) skipped
        ∧ is_valid_phone phone = true
        ∧ shown s' = shown s
                       ++ flat_map (λ _, [Prompt prompt; InvalidPhone]) skipped
                       ++ [Prompt prompt]
        ∧ disk s' = disk s
  | (EOFError, s') =>
      Forall (λ l, is_valid_phone l = false) (stdin s)
      ∧ stdin s' = []
      ∧ shown s' = shown s
                     ++ flat_map (λ _, [Prompt prompt; InvalidPhone]) (stdin s)
                     ++ [Prompt prompt]
      ∧ disk s' = disk s
  | (Raised _, _) | (Unfinished, _) => False
  end.
Proof. apply (filter_loop_outcome prompt is_valid_phone InvalidPhone). Qed.

(** X20. [is_valid_string] and [is_valid_password] test the same bounds: the
    first returns what the second returns, and differs from it only in
    writing one message when it returns [False]. *)
Theorem is_valid_string_verdict input_string min_length max_length s :
  ∃ said,
    is_valid_string input_string min_length max_length s
    = (Reply (is_valid_password input_string min_length max_length),
       Session (stdin s) (shown s ++ said) (disk s))
    ∧ length said
      = (if is_valid_password input_string min_length max_length
         then 0 else 1)%nat.
Proof.
  unfold is_valid_string, is_valid_password, io_bind, say, io_ret.
  destruct min_length as [lo|], max_length as [hi|]; repeat case_match;
    (try by (exists []; rewrite app_nil_r, session_eta));
    by (eexists [_]).
Qed.
End PatternLoops.
